(** * Cultura: fact extraction, completion fallback and location classification

    A shallow embedding of [gemini_utils.py], [geo.py], [config.py] and
    [location.py].  Python strings are modelled as [string], every
    character standing for a code point below 256; dictionaries with
    string keys are [gmap string _]; the generative model, the random
    model choice and the Nominatim service are external collaborators
    whose answers are read from a [Backend] record, and every call that
    reaches them is appended to a log kept in the [world]. *)

From Stdlib Require Import String Ascii List ZArith Lia Bool.
From stdpp Require Import base option list gmap strings.

Set Warnings "-register-all".
#[local] Open Scope string_scope.

(** ** Python values and string primitives *)
Module Py.

(** The values that flow through the dictionaries of the program.  A float
    is carried as its IEEE-754 binary64 bit pattern: the program never
    computes with one, it only stores and tests them. *)
Inductive pyval : Type :=
| PNone
| PBool (b : bool)
| PInt (z : Z)
| PFloat (bits : Z)
| PStr (s : string)
| PList (l : list pyval)
| PDict (d : gmap string pyval).

(** Exceptions that the modelled code can raise. *)
Inductive exn : Type :=
| TypeError
| AttributeError
| CompletionError
| JSONDecodeError
| ValueError
| RecursionError.

Definition dquote : string := String (ascii_of_nat 34) EmptyString.
Definition newline : string := String (ascii_of_nat 10) EmptyString.

(** [bool(v)] *)
Definition truthy (v : pyval) : bool :=
  match v with
  | PNone => false
  | PBool b => b
  | PInt z => negb (Z.eqb z 0)
  | PFloat bits => negb (Z.eqb bits 0 || Z.eqb bits (2 ^ 63))
  | PStr s => negb (String.eqb s EmptyString)
  | PList l => match l with [] => false | _ => true end
  | PDict d => negb (Nat.eqb (size d) 0)
  end.

(** [a or b] *)
Definition py_or (a b : pyval) : pyval := if truthy a then a else b.

(** [d.get(k)] and [d.get(k, dflt)] *)
Definition get (d : gmap string pyval) (k : string) : pyval :=
  default PNone (d !! k).
Definition get_or (d : gmap string pyval) (k : string) (dflt : pyval) : pyval :=
  default dflt (d !! k).

(** [c.isspace()] for code points below 256. *)
Definition isspace (c : ascii) : bool :=
  let n := nat_of_ascii c in
  (((9 <=? n) && (n <=? 13)) || ((28 <=? n) && (n <=? 32))
   || (n =? 133) || (n =? 160))%nat.

(** [c.lower()] for code points below 256: A-Z, and the Latin-1 capitals
    0xC0-0xDE except the multiplication sign 0xD7. *)
Definition lower_char (c : ascii) : ascii :=
  let n := nat_of_ascii c in
  if (((65 <=? n) && (n <=? 90))
      || ((192 <=? n) && (n <=? 222) && negb (n =? 215)))%nat
  then ascii_of_nat (n + 32) else c.

Fixpoint lower (s : string) : string :=
  match s with
  | EmptyString => EmptyString
  | String c s' => String (lower_char c) (lower s')
  end.

Fixpoint lstrip_by (drop : ascii -> bool) (s : string) : string :=
  match s with
  | EmptyString => EmptyString
  | String c s' => if drop c then lstrip_by drop s' else s
  end.

Fixpoint rstrip_by (drop : ascii -> bool) (s : string) : string :=
  match s with
  | EmptyString => EmptyString
  | String c s' =>
      match rstrip_by drop s' with
      | EmptyString => if drop c then EmptyString else String c EmptyString
      | r => String c r
      end
  end.

(** [s.strip()] *)
Definition strip (s : string) : string := rstrip_by isspace (lstrip_by isspace s).

(** [s.strip(ch)] for a one-character argument. *)
Definition strip_char (ch : ascii) (s : string) : string :=
  rstrip_by (Ascii.eqb ch) (lstrip_by (Ascii.eqb ch) s).

(** The rest of [s] after the prefix [p], when [s.startswith(p)]. *)
Fixpoint strip_prefix (p s : string) : option string :=
  match p, s with
  | EmptyString, _ => Some s
  | String a p', String b s' => if Ascii.eqb a b then strip_prefix p' s' else None
  | String _ _, EmptyString => None
  end.

Definition startswith (p s : string) : bool :=
  match strip_prefix p s with Some _ => true | None => false end.

(** [s.partition(sep)] at the first occurrence of [sep], [None] when
    [sep] does not occur. *)
Fixpoint partition (sep s : string) : option (string * string) :=
  match strip_prefix sep s with
  | Some rest => Some (EmptyString, rest)
  | None =>
      match s with
      | EmptyString => None
      | String c s' =>
          match partition sep s' with
          | Some (before, after) => Some (String c before, after)
          | None => None
          end
      end
  end.

(** [sub in s] *)
Definition contains (sub s : string) : bool :=
  match partition sub s with Some _ => true | None => false end.

Fixpoint split_fuel (fuel : nat) (sep s : string) : list string :=
  match fuel with
  | O => [s]
  | S fuel' =>
      match partition sep s with
      | Some (before, after) => before :: split_fuel fuel' sep after
      | None => [s]
      end
  end.

(** [s.split(sep)] for a non-empty [sep]: every occurrence consumes at
    least one character, so [String.length s] rounds are enough. *)
Definition split (sep s : string) : list string :=
  split_fuel (String.length s) sep s.

(** [s.split(sep, 1)] *)
Definition split1 (sep s : string) : list string :=
  match partition sep s with
  | Some (before, after) => [before; after]
  | None => [s]
  end.

(** [s.split()]: the maximal runs of non-whitespace characters. *)
Fixpoint split_ws (s : string) : list string :=
  match s with
  | EmptyString => []
  | String c s' =>
      if isspace c then split_ws s'
      else
        match s' with
        | EmptyString => [String c EmptyString]
        | String c' _ =>
            if isspace c' then String c EmptyString :: split_ws s'
            else
              match split_ws s' with
              | t :: ts => String c t :: ts
              | [] => [String c EmptyString]
              end
        end
  end.

(** [s.replace(old, new)] for a one-character [old]. *)
Fixpoint replace_char (old : ascii) (new : string) (s : string) : string :=
  match s with
  | EmptyString => EmptyString
  | String c s' =>
      if Ascii.eqb c old then new +:+ replace_char old new s'
      else String c (replace_char old new s')
  end.

(** [sep.join(l)] *)
Fixpoint join (sep : string) (l : list string) : string :=
  match l with
  | [] => EmptyString
  | [x] => x
  | x :: rest => x +:+ sep +:+ join sep rest
  end.

Definition is_alnum (c : ascii) : bool :=
  let n := nat_of_ascii c in
  (((48 <=? n) && (n <=? 57)) || ((65 <=? n) && (n <=? 90))
   || ((97 <=? n) && (n <=? 122)))%nat.

Fixpoint all_chars (p : ascii -> bool) (s : string) : bool :=
  match s with
  | EmptyString => true
  | String c s' => p c && all_chars p s'
  end.

(** [re.fullmatch] with the pattern [[a-zA-Z0-9]+], as a truth value. *)
Definition fullmatch_alnum (s : string) : bool :=
  match s with
  | EmptyString => false
  | String _ _ => all_chars is_alnum s
  end.

(** [x in l] for a list of strings. *)
Definition mem (x : string) (l : list string) : bool :=
  existsb (String.eqb x) l.

End Py.

Import Py.

(** ** config.py *)
Module Config.

Definition GEMINI_MODELS : list string :=
  [ "models/gemini-1.5-flash";
    "models/gemini-1.5-flash-8b";
    "models/gemini-2.0-flash";
    "models/gemini-2.5-flash" ].

(** [get_gemini_config()['available_models']].  [get_gemini_config] raises
    only when the API key is unset, and then the import of
    [gemini_utils] (which calls it at module level) already fails; in
    every state that reaches the functions below it returns the roster. *)
Definition available_models : list string := GEMINI_MODELS.

End Config.

(** ** The external collaborators and the process state *)

(** What a Nominatim answer contributes to the record built by
    [get_user_location_polygon]. *)
Record geo_hit : Type := {
  hit_display_name : pyval;
  hit_latitude : pyval;
  hit_longitude : pyval;
  hit_bbox : pyval;
  hit_address : pyval;
  hit_place_id : pyval;
  hit_importance : pyval
}.

(** The answers of the outside world.  Each oracle receives the number of
    earlier calls of its kind, so its answers may change from call to
    call; [None] stands for a raised exception (or, for Nominatim, any
    outcome other than a non-empty result list with status 200).
    [json.loads] returns the decoded value or raises: [JSONDecodeError] on
    a text that is not JSON, and other exceptions on some texts that are
    ([RecursionError] on nesting beyond the interpreter's recursion limit,
    a plain [ValueError] on an integer literal beyond the digit limit). *)
Record Backend : Type := {
  py_str : pyval -> string;
  json_loads : string -> exn + pyval;
  random_choice : nat -> nat;
  generate_content : nat -> string -> string -> option string;
  nominatim : nat -> string -> option geo_hit
}.

Record world : Type := {
  user_preferences : gmap string (gmap string pyval);
  chat_log : list (string * string * bool);
  draws : nat;
  generate_log : list (string * string);
  adapter_log : list string;
  request_log : list string
}.

Definition set_user_preferences (f : gmap string (gmap string pyval) -> gmap string (gmap string pyval))
    (w : world) : world :=
  {| user_preferences := f (user_preferences w); chat_log := chat_log w;
     draws := draws w; generate_log := generate_log w;
     adapter_log := adapter_log w; request_log := request_log w |}.

Definition log_chat (c : string * string * bool) (w : world) : world :=
  {| user_preferences := user_preferences w; chat_log := chat_log w ++ [c];
     draws := draws w; generate_log := generate_log w;
     adapter_log := adapter_log w; request_log := request_log w |}.

Definition log_draw (w : world) : world :=
  {| user_preferences := user_preferences w; chat_log := chat_log w;
     draws := S (draws w); generate_log := generate_log w;
     adapter_log := adapter_log w; request_log := request_log w |}.

Definition log_generate (c : string * string) (w : world) : world :=
  {| user_preferences := user_preferences w; chat_log := chat_log w;
     draws := draws w; generate_log := generate_log w ++ [c];
     adapter_log := adapter_log w; request_log := request_log w |}.

Definition log_adapter (q : string) (w : world) : world :=
  {| user_preferences := user_preferences w; chat_log := chat_log w;
     draws := draws w; generate_log := generate_log w;
     adapter_log := adapter_log w ++ [q]; request_log := request_log w |}.

Definition log_request (q : string) (w : world) : world :=
  {| user_preferences := user_preferences w; chat_log := chat_log w;
     draws := draws w; generate_log := generate_log w;
     adapter_log := adapter_log w; request_log := request_log w ++ [q] |}.

Definition empty_world : world :=
  {| user_preferences := ∅; chat_log := []; draws := 0; generate_log := [];
     adapter_log := []; request_log := [] |}.

(** ** geo.py *)
Module Geo.

Section WithBackend.
Context (E : Backend).

(** [LocationAPI.get_user_location_polygon] *)
Definition get_user_location_polygon (location_query : string) (w : world)
    : option (gmap string pyval) * world :=
  let w := log_adapter location_query w in
  if String.eqb location_query EmptyString
     || String.eqb (lower location_query) "unknown"
  then (None, w)
  else
    let answer := nominatim E (List.length (request_log w)) location_query in
    let w := log_request location_query w in
    match answer with
    | Some hit =>
        (Some (<["display_name" := hit_display_name hit]>
               (<["source" := PStr "nominatim"]>
               (<["latitude" := hit_latitude hit]>
               (<["longitude" := hit_longitude hit]>
               (<["bbox" := hit_bbox hit]>
               (<["address" := hit_address hit]>
               (<["place_id" := hit_place_id hit]>
               (<["importance" := hit_importance hit]> ∅)))))))), w)
    | None => (None, w)
    end.

End WithBackend.
End Geo.

(** ** gemini_utils.py *)
Module GeminiUtils.

Definition greeting_reply : string :=
  "Hey! I am Cultura, your personal stylist. How can I help you today?".
Definition not_understood_reply : string :=
  "Hey, I didn't understand you. Could you please elaborate?".
Definition apology_reply : string :=
  "I'm having trouble generating a response right now. Please try again.".

Definition greetings : list string :=
  ["hey"; "hi"; "hello"; "hola"; "yo"; "greetings"].
Definition intent_categories : list string :=
  ["skincare"; "event_dressing"; "travel"; "music"; "general_recommendation"].

Definition get_model_for_task (task_complexity : string) : string :=
  if String.eqb task_complexity "simple" then "models/gemini-1.5-flash"
  else if String.eqb task_complexity "medium" then "models/gemini-2.0-flash"
  else "models/gemini-2.5-flash".

(** The model tried after [model_name] has failed (lines 52-54). *)
Definition fallback_model_for (model_name : string) : string :=
  let fallback_model := "models/gemini-1.5-flash" in
  if String.eqb model_name fallback_model then "models/gemini-2.0-flash"
  else fallback_model.

Definition classify_intent_prompt (message : string) : string :=
  join newline
    [ EmptyString;
      "    You are an AI assistant specialized in fashion and lifestyle. Analyze the user's message and classify their intent into one of these categories:";
      EmptyString;
      "    - skincare";
      "    - event_dressing";
      "    - travel";
      "    - music";
      "    - general_recommendation";
      EmptyString;
      "    Message: " +:+ dquote +:+ message +:+ dquote;
      "    Respond with only the category name.";
      "    " ].

Definition extract_user_info_prompt (message : string) : string :=
  join newline
    [ EmptyString;
      "    Extract user information from this message. Look for:";
      "    - Location";
      "    - Body Type";
      "    - Style Preferences";
      "    - Budget";
      EmptyString;
      "    Message: " +:+ dquote +:+ message +:+ dquote;
      "    Respond in the format:";
      "    Location: ...";
      "    Body Type: ...";
      "    Style Preferences: ...";
      "    Budget: ...";
      "    " ].

Definition fashion_prompt (location_context body_type style_preferences budget
    intent_category message : string) : string :=
  join newline
    [ EmptyString;
      "    You are Cultura, an expert fashion and lifestyle assistant. ";
      "    You are a helpful assistant who can help the user with their fashion and lifestyle needs.";
      EmptyString;
      "    Instructions:";
      "    1. Provide recommendations as a numbered list (1., 2., 3., etc.).";
      "    2. Do not use bold text, markdown, or special formatting.";
      "    3. Keep the tone casual, friendly, and concise.";
      "    4. Include specific product names, brands, and styling tips where possible.";
      "    5. Ensure suggestions are relevant to the user's location, body type, style preferences, and budget.";
      "    6. Keep the entire response under 300 words.";
      "    7. If more details are needed (location, body type, budget), ask politely at the end.";
      "    8. Do not use bold text, markdown, or special formatting.";
      EmptyString;
      "    Example:";
      "    1. Linen maxi dress from Mango — breathable and perfect for hot weather.";
      "    2. Tailored blazer from Zara — works for both office and evening events.";
      "    3. Leather sandals from Clarks — stylish yet comfortable for walking.";
      EmptyString;
      "    " +:+ location_context;
      EmptyString;
      "    User Information:";
      "    - Body Type: " +:+ body_type;
      "    - Style Preferences: " +:+ style_preferences;
      "    - Budget: " +:+ budget;
      "    - Intent Category: " +:+ intent_category;
      EmptyString;
      "    User Message: " +:+ dquote +:+ message +:+ dquote;
      "    " ].

Section WithBackend.
Context (E : Backend).

(** Lines 40-43: the model of the first attempt. *)
Definition select_model (task_complexity : string) (use_random_model : bool)
    (w : world) : string * world :=
  if use_random_model then
    let models := Config.available_models in
    (List.nth (random_choice E (draws w) mod List.length models) models EmptyString,
     log_draw w)
  else (get_model_for_task task_complexity, w).

(** One [GenerativeModel(model_name).generate_content(prompt)] followed by
    [response.text.strip()]; [None] when any of it raises. *)
Definition attempt (model_name prompt : string) (w : world) : option string * world :=
  (option_map strip (generate_content E (List.length (generate_log w)) model_name prompt),
   log_generate (model_name, prompt) w).

Definition _llm_chat (prompt task_complexity : string) (use_random_model : bool)
    (w : world) : string * world :=
  let w := log_chat (prompt, task_complexity, use_random_model) w in
  let '(model_name, w) := select_model task_complexity use_random_model w in
  match attempt model_name prompt w with
  | (Some text, w) => (text, w)
  | (None, w) =>
      match attempt (fallback_model_for model_name) prompt w with
      | (Some text, w) => (text, w)
      | (None, w) => (apology_reply, w)
      end
  end.

Definition classify_intent (message : string) (w : world) : string * world :=
  _llm_chat (classify_intent_prompt message) "simple" false w.

Definition get_enhanced_location_info (location_string : string) (w : world)
    : pyval * world :=
  if String.eqb location_string EmptyString
     || String.eqb (lower location_string) "unknown"
  then (PNone, w)
  else
    let '(polygon_data, w) := Geo.get_user_location_polygon E location_string w in
    match polygon_data with
    | Some d =>
        if truthy (PDict d) then
          (PDict (<["original_query" := PStr location_string]>
                 (<["display_name" := get_or d "display_name" (PStr EmptyString)]>
                 (<["source" := get_or d "source" (PStr EmptyString)]>
                 (<["bbox" := get_or d "bbox" (PList [])]>
                 (<["polygon_available" := PBool true]> ∅))))), w)
        else
          (PDict (<["original_query" := PStr location_string]>
                 (<["polygon_available" := PBool false]> ∅)), w)
    | None =>
        (PDict (<["original_query" := PStr location_string]>
               (<["polygon_available" := PBool false]> ∅)), w)
    end.

(** [user_preferences[user_id][key] = v]; the entry for [user_id] exists
    wherever this is used (lines 117-118 create it). *)
Definition store_field (user_id key : string) (v : pyval) (w : world) : world :=
  set_user_preferences (alter (insert key v) user_id) w.

(** [line.split(label)[1].strip()] *)
Definition value_after (label line : string) : string :=
  strip (List.nth 1 (split label line) EmptyString).

(** The body of the loop of lines 120-139. *)
Definition process_line (user_id line : string) (w : world) : world :=
  if contains "Location:" line then
    let location := value_after "Location:" line in
    if negb (String.eqb location "unknown") then
      let w := store_field user_id "location" (PStr location) w in
      let '(enhanced_location, w) := get_enhanced_location_info location w in
      if truthy enhanced_location
      then store_field user_id "enhanced_location" enhanced_location w
      else w
    else w
  else if contains "Body Type:" line then
    let body_type := value_after "Body Type:" line in
    if negb (String.eqb body_type "unknown")
    then store_field user_id "body_type" (PStr body_type) w
    else w
  else if contains "Style Preferences:" line then
    let style := value_after "Style Preferences:" line in
    if negb (String.eqb style "unknown")
    then store_field user_id "style_preferences" (PStr style) w
    else w
  else if contains "Budget:" line then
    let budget := value_after "Budget:" line in
    if negb (String.eqb budget "unknown")
    then store_field user_id "budget" (PStr budget) w
    else w
  else w.

Definition extract_user_info (message user_id : string) (w : world)
    : gmap string pyval * world :=
  let '(extracted, w) := _llm_chat (extract_user_info_prompt message) "medium" true w in
  let w :=
    match user_preferences w !! user_id with
    | Some _ => w
    | None => set_user_preferences (insert user_id ∅) w
    end in
  let lines := split newline (strip extracted) in
  let w := fold_left (fun w line => process_line user_id line w) lines w in
  (default ∅ (user_preferences w !! user_id), w).

Definition generate_fashion_response (message intent_category user_id : string)
    (w : world) : (exn + string) * world :=
  let user_info := default ∅ (user_preferences w !! user_id) in
  let location := get_or user_info "location" (PStr "unknown") in
  let enhanced_location := get_or user_info "enhanced_location" (PDict ∅) in
  let body_type := get_or user_info "body_type" (PStr "unknown") in
  let style_preferences := get_or user_info "style_preferences" (PStr "unknown") in
  let budget := get_or user_info "budget" (PStr "unknown") in
  let location_known :=
    match location with
    | PStr s => negb (String.eqb s "unknown")
    | _ => true
    end in
  let polygon_available : exn + bool :=
    if truthy enhanced_location then
      match enhanced_location with
      | PDict d => inr (truthy (get d "polygon_available"))
      | _ => inl AttributeError
      end
    else inr false in
  let location_context : exn + string :=
    match polygon_available with
    | inl e => inl e
    | inr true =>
        match enhanced_location with
        | PDict d =>
            inr (join newline
                   [ EmptyString;
                     "        Enhanced Location Information:";
                     "        - User mentioned: " +:+ py_str E location;
                     "        - Full location: "
                       +:+ py_str E (get_or d "display_name" (PStr EmptyString));
                     "        " ])
        | _ => inl AttributeError
        end
    | inr false =>
        if location_known then inr ("User Location: " +:+ py_str E location)
        else inr EmptyString
    end in
  match location_context with
  | inl e => (inl e, w)
  | inr location_context =>
      let '(text, w) :=
        _llm_chat (fashion_prompt location_context (py_str E body_type)
                     (py_str E style_preferences) (py_str E budget)
                     intent_category message) "complex" true w in
      (inr text, w)
  end.

Definition process_user_message (message user_id : string) (w : world)
    : (exn + string) * world :=
  let '(_, w) := extract_user_info message user_id w in
  if mem (lower (strip message)) greetings then (inr greeting_reply, w)
  else if (Nat.eqb (List.length (split_ws (strip message))) 1
           && negb (mem (lower (strip message)) greetings))
          && fullmatch_alnum (strip message)
  then (inr not_understood_reply, w)
  else
    let '(intent, w) := classify_intent message w in
    if negb (mem intent intent_categories) then (inr not_understood_reply, w)
    else generate_fashion_response message intent user_id w.

End WithBackend.

(** *** The four labels, for stating properties of [extract_user_info] *)

Inductive label : Type :=
| LocationLabel
| BodyTypeLabel
| StylePreferencesLabel
| BudgetLabel.

#[global] Instance label_eq_dec : EqDecision label.
Proof. solve_decision. Defined.

Definition label_token (l : label) : string :=
  match l with
  | LocationLabel => "Location:"
  | BodyTypeLabel => "Body Type:"
  | StylePreferencesLabel => "Style Preferences:"
  | BudgetLabel => "Budget:"
  end.

(** The key of [user_preferences[user_id]] that a label writes. *)
Definition label_key (l : label) : string :=
  match l with
  | LocationLabel => "location"
  | BodyTypeLabel => "body_type"
  | StylePreferencesLabel => "style_preferences"
  | BudgetLabel => "budget"
  end.

Definition labels_by_priority : list label :=
  [LocationLabel; BodyTypeLabel; StylePreferencesLabel; BudgetLabel].

(** The first label, in priority order, whose token occurs in the line. *)
Definition first_label (line : string) : option label :=
  List.find (fun l => contains (label_token l) line) labels_by_priority.

(** The label a line is read under and the value it supplies. *)
Definition labeled_value (line : string) : option (label * string) :=
  match first_label line with
  | Some l => Some (l, value_after (label_token l) line)
  | None => None
  end.

(** The lines of a response, as line 119 splits them. *)
Definition response_lines (extracted : string) : list string :=
  split newline (strip extracted).

(** Every labelled value of the response is the literal [unknown]. *)
Definition all_values_unknown (extracted : string) : bool :=
  forallb (fun line =>
             match labeled_value line with
             | Some (_, v) => String.eqb v "unknown"
             | None => true
             end) (response_lines extracted).

(** Every labelled value of the response is [unknown], except under the
    Budget label. *)
Definition only_budget_supplied (extracted : string) : bool :=
  forallb (fun line =>
             match labeled_value line with
             | Some (BudgetLabel, _) => true
             | Some (_, v) => String.eqb v "unknown"
             | None => true
             end) (response_lines extracted).

(** The last Budget value of the lines that is not [unknown], if any. *)
Definition last_budget_of (lines : list string) : option string :=
  fold_left (fun found line =>
               match labeled_value line with
               | Some (BudgetLabel, v) =>
                   if String.eqb v "unknown" then found else Some v
               | _ => found
               end) lines None.

Definition last_budget (extracted : string) : option string :=
  last_budget_of (response_lines extracted).

(** What a line does once it is read under label [l] with value [v]:
    nothing for [unknown]; otherwise the label's key is written, and a
    location is also looked up and its result stored. *)
Definition apply_label (E : Backend) (user_id : string) (l : label) (v : string)
    (w : world) : world :=
  if String.eqb v "unknown" then w
  else
    match l with
    | LocationLabel =>
        let w := store_field user_id "location" (PStr v) w in
        let '(enhanced_location, w) := get_enhanced_location_info E v w in
        if truthy enhanced_location
        then store_field user_id "enhanced_location" enhanced_location w
        else w
    | _ => store_field user_id (label_key l) (PStr v) w
    end.

(** The value stored under key [k] for user [u]. *)
Definition stored (w : world) (u k : string) : option pyval :=
  match user_preferences w !! u with
  | Some record => record !! k
  | None => None
  end.

End GeminiUtils.

(** ** A JSON decoder for the examples *)
Module Json.

Definition is_ws (c : ascii) : bool :=
  let n := nat_of_ascii c in
  ((n =? 32) || (n =? 9) || (n =? 10) || (n =? 13))%nat.

Definition is_digit (c : ascii) : bool :=
  let n := nat_of_ascii c in ((48 <=? n) && (n <=? 57))%nat.

Fixpoint skip_ws (s : string) : string :=
  match s with
  | EmptyString => EmptyString
  | String c s' => if is_ws c then skip_ws s' else s
  end.

Definition unescape (c : ascii) : option ascii :=
  let n := nat_of_ascii c in
  if (n =? 34)%nat then Some c
  else if (n =? 92)%nat then Some c
  else if (n =? 47)%nat then Some c
  else if (n =? 98)%nat then Some (ascii_of_nat 8)
  else if (n =? 102)%nat then Some (ascii_of_nat 12)
  else if (n =? 110)%nat then Some (ascii_of_nat 10)
  else if (n =? 114)%nat then Some (ascii_of_nat 13)
  else if (n =? 116)%nat then Some (ascii_of_nat 9)
  else None.

Definition cons_fst (c : ascii) (r : option (string * string)) : option (string * string) :=
  match r with
  | Some (body, rest) => Some (String c body, rest)
  | None => None
  end.

(** The characters of a string literal up to its closing quote, and the
    text after it. *)
Fixpoint string_body (s : string) : option (string * string) :=
  match s with
  | EmptyString => None
  | String c s' =>
      if (nat_of_ascii c =? 34)%nat then Some (EmptyString, s')
      else if (nat_of_ascii c =? 92)%nat then
        match s' with
        | String e s'' =>
            match unescape e with
            | Some ch => cons_fst ch (string_body s'')
            | None => None
            end
        | EmptyString => None
        end
      else if (nat_of_ascii c <? 32)%nat then None
      else cons_fst c (string_body s')
  end.

Fixpoint digits (acc : Z) (s : string) : Z * string :=
  match s with
  | String c s' =>
      if is_digit c then digits (10 * acc + Z.of_nat (nat_of_ascii c - 48)) s'
      else (acc, s)
  | EmptyString => (acc, s)
  end.

(** An integer literal; a fraction or an exponent is not decoded. *)
Definition integer (s : string) : option (Z * string) :=
  let '(negative, s) :=
    match strip_prefix "-" s with
    | Some rest => (true, rest)
    | None => (false, s)
    end in
  match s with
  | String c s' =>
      if is_digit c then
        let '(z, rest) :=
          if (nat_of_ascii c =? 48)%nat then (0%Z, s') else digits 0 s in
        match rest with
        | String d _ =>
            if is_digit d || mem (String d EmptyString) ["."; "e"; "E"] then None
            else Some (if negative then (- z)%Z else z, rest)
        | EmptyString => Some (if negative then (- z)%Z else z, rest)
        end
      else None
  | EmptyString => None
  end.

Fixpoint value (fuel : nat) (s : string) : option (pyval * string) :=
  match fuel with
  | O => None
  | S fuel =>
      match skip_ws s with
      | EmptyString => None
      | String c rest as s =>
          if (nat_of_ascii c =? 123)%nat then
            match strip_prefix "}" (skip_ws rest) with
            | Some rest => Some (PDict ∅, rest)
            | None => members fuel ∅ rest
            end
          else if (nat_of_ascii c =? 91)%nat then
            match strip_prefix "]" (skip_ws rest) with
            | Some rest => Some (PList [], rest)
            | None => elements fuel [] rest
            end
          else if (nat_of_ascii c =? 34)%nat then
            match string_body rest with
            | Some (body, rest) => Some (PStr body, rest)
            | None => None
            end
          else
            match strip_prefix "true" s, strip_prefix "false" s, strip_prefix "null" s with
            | Some rest, _, _ => Some (PBool true, rest)
            | _, Some rest, _ => Some (PBool false, rest)
            | _, _, Some rest => Some (PNone, rest)
            | _, _, _ =>
                match integer s with
                | Some (z, rest) => Some (PInt z, rest)
                | None => None
                end
            end
      end
  end
with members (fuel : nat) (acc : gmap string pyval) (s : string)
    : option (pyval * string) :=
  match fuel with
  | O => None
  | S fuel =>
      match strip_prefix dquote (skip_ws s) with
      | Some rest =>
          match string_body rest with
          | Some (key, rest) =>
              match strip_prefix ":" (skip_ws rest) with
              | Some rest =>
                  match value fuel rest with
                  | Some (v, rest) =>
                      match skip_ws rest with
                      | String c rest =>
                          if (nat_of_ascii c =? 44)%nat
                          then members fuel (<[key := v]> acc) rest
                          else if (nat_of_ascii c =? 125)%nat
                          then Some (PDict (<[key := v]> acc), rest)
                          else None
                      | EmptyString => None
                      end
                  | None => None
                  end
              | None => None
              end
          | None => None
          end
      | None => None
      end
  end
with elements (fuel : nat) (acc : list pyval) (s : string)
    : option (pyval * string) :=
  match fuel with
  | O => None
  | S fuel =>
      match value fuel s with
      | Some (v, rest) =>
          match skip_ws rest with
          | String c rest =>
              if (nat_of_ascii c =? 44)%nat then elements fuel (acc ++ [v]) rest
              else if (nat_of_ascii c =? 93)%nat then Some (PList (acc ++ [v]), rest)
              else None
          | EmptyString => None
          end
      | None => None
      end
  end.

(** [json.loads] on the texts it covers: objects, arrays, strings with
    two-character escapes, integers, [true], [false] and [null].  On a
    [\u] escape, a fraction, an exponent or the non-standard constants it
    answers [None] where Python decodes. *)
Definition loads (s : string) : option pyval :=
  match value (S (String.length s)) s with
  | Some (v, rest) =>
      match skip_ws rest with
      | EmptyString => Some v
      | String _ _ => None
      end
  | None => None
  end.

End Json.

(** ** location.py *)
Module Location.

Definition required_fields : list string :=
  ["region"; "climate_zone"; "fashion_market"].
Definition text_scalar_fields : list string :=
  ["region"; "climate_zone"; "fashion_market"; "seasonal_info"; "price_range_info"].
Definition list_fields : list string :=
  ["local_brands"; "available_stores"; "online_platforms";
   "cultural_considerations"; "popular_styles"].

Definition strs (l : list string) : pyval := PList (map PStr l).

Definition empty_climate_recommendations : pyval :=
  PDict (<["fabrics" := PList []]> (<["colors" := PList []]>
        (<["styles" := PList []]> (<["essentials" := PList []]> ∅)))).

(** The prefix of [s] that ends just before the last [ch]. *)
Fixpoint upto_last (ch : ascii) (s : string) : option string :=
  match s with
  | EmptyString => None
  | String c s' =>
      match upto_last ch s' with
      | Some r => Some (String c r)
      | None => if Ascii.eqb c ch then Some EmptyString else None
      end
  end.

(** [re.search(r'\{.*\}', response, re.DOTALL)]: from the first opening
    brace to the last closing brace after it. *)
Definition search_braces (response : string) : option string :=
  match partition "{" response with
  | Some (_, after) =>
      match upto_last "}" after with
      | Some inner => Some ("{" +:+ inner +:+ "}")
      | None => None
      end
  | None => None
  end.

(** [re.findall] with the pattern of line 178: a double quote, one or more
    characters other than a double quote (the group), a double quote.
    [inside] holds the characters read since an opening quote; a quote met
    with nothing read since the last one becomes the new opening quote. *)
Fixpoint findall_quoted (inside : option string) (s : string) : list string :=
  match s with
  | EmptyString => []
  | String c s' =>
      if Ascii.eqb c (ascii_of_nat 34) then
        match inside with
        | Some (String _ _ as item) => item :: findall_quoted None s'
        | _ => findall_quoted (Some EmptyString) s'
        end
      else
        match inside with
        | Some item => findall_quoted (Some (item +:+ String c EmptyString)) s'
        | None => findall_quoted None s'
        end
  end.

(** Lines 177-181: the list written for a list-valued key, when the value
    holds both brackets. *)
Definition parse_list_value (value : string) : pyval :=
  let items := findall_quoted None value in
  let items :=
    match items with
    | [] => map strip (split "," (replace_char "]" EmptyString
                                    (replace_char "[" EmptyString value)))
    | _ => items
    end in
  strs (map (fun item => strip (strip_char (ascii_of_nat 34) item))
          (List.filter (fun item => negb (String.eqb (strip item) EmptyString)) items)).

Definition text_defaults : gmap string pyval :=
  <["region" := PStr "unknown"]>
  (<["climate_zone" := PStr "temperate"]>
  (<["fashion_market" := PStr "international"]>
  (<["local_brands" := PList []]>
  (<["available_stores" := PList []]>
  (<["online_platforms" := PList []]>
  (<["cultural_considerations" := PList []]>
  (<["seasonal_info" := PStr "Varies by season"]>
  (<["price_range_info" := PStr "Varies"]>
  (<["popular_styles" := PList []]>
  (<["climate_recommendations" := empty_climate_recommendations]> ∅)))))))))).

(** The body of the loop of lines 166-181. *)
Definition parse_text_line (classification : gmap string pyval) (line : string)
    : gmap string pyval :=
  let line := strip line in
  if contains ":" line && negb (startswith "-" line) then
    let parts := split1 ":" line in
    let key := replace_char "-" "_"
                 (replace_char " " "_" (lower (strip (List.nth 0 parts EmptyString)))) in
    let value := strip (List.nth 1 parts EmptyString) in
    if mem key text_scalar_fields then
      <[key := PStr (strip_char (ascii_of_nat 34) value)]> classification
    else if mem key list_fields then
      if contains "[" value && contains "]" value
      then <[key := parse_list_value value]> classification
      else classification
    else classification
  else classification.

Definition _parse_text_classification_response (response : string)
    : gmap string pyval :=
  fold_left parse_text_line (split newline response) text_defaults.

(** Lines 117-133 on a decoded object. *)
Definition fill_required (classification : gmap string pyval) (field : string)
    : gmap string pyval :=
  match classification !! field with
  | Some _ => classification
  | None => <[field := PStr "unknown"]> classification
  end.

Definition fill_list (classification : gmap string pyval) (field : string)
    : gmap string pyval :=
  match classification !! field with
  | Some (PList _) => classification
  | _ => <[field := PList []]> classification
  end.

Definition validate (classification : gmap string pyval) : gmap string pyval :=
  let classification := fold_left fill_required required_fields classification in
  let classification := fold_left fill_list list_fields classification in
  match classification !! "climate_recommendations" with
  | Some _ => classification
  | None => <["climate_recommendations" := empty_climate_recommendations]> classification
  end.

(** Lines 187-218. *)
Definition generic_fallback (region climate_zone : string) : gmap string pyval :=
  <["region" := PStr region]>
  (<["climate_zone" := PStr climate_zone]>
  (<["fashion_market" := PStr "international"]>
  (<["local_brands" := strs ["Zara"; "H&M"; "Uniqlo"]]>
  (<["available_stores" := strs ["Local malls"; "Online retailers"]]>
  (<["online_platforms" := strs ["Amazon"; "Local e-commerce"]]>
  (<["cultural_considerations" := strs ["Weather appropriate"; "Occasion suitable"]]>
  (<["seasonal_info" := PStr "Four seasons with varying temperatures"]>
  (<["price_range_info" := PStr "Mid-range pricing"]>
  (<["popular_styles" := strs ["Casual"; "Smart casual"; "Formal"]]>
  (<["climate_recommendations" :=
       PDict (<["fabrics" := strs ["Cotton"; "Polyester blends"]]>
             (<["colors" := strs ["Neutral tones"; "Seasonal colors"]]>
             (<["styles" := strs ["Layerable pieces"; "Versatile basics"]]>
             (<["essentials" := strs ["Jacket"; "Comfortable shoes"]]> ∅))))]>
   ∅)))))))))).

Definition south_asia_terms : list string :=
  ["india"; "pakistan"; "bangladesh"; "sri lanka"].
Definition north_america_terms : list string :=
  ["united states"; "usa"; "canada"].
Definition europe_terms : list string :=
  ["united kingdom"; "france"; "germany"; "spain"; "italy"].

(** [any(term in country for term in terms)] *)
Definition any_in (terms : list string) (country : string) : bool :=
  existsb (fun term => contains term country) terms.

Definition _get_basic_fallback_classification (location_info : gmap string pyval)
    : exn + gmap string pyval :=
  match get_or location_info "country" (PStr EmptyString) with
  | PStr country =>
      let country := lower country in
      if any_in south_asia_terms country then inr (generic_fallback "south_asia" "tropical")
      else if any_in north_america_terms country
      then inr (generic_fallback "north_america" "temperate")
      else if any_in europe_terms country then inr (generic_fallback "europe" "temperate")
      else inr (generic_fallback "unknown" "temperate")
  | _ => inl AttributeError
  end.

Definition quoted (s : string) : string := dquote +:+ s +:+ dquote.

Definition classification_prompt (display_name city country : string) : string :=
  join newline
    [ EmptyString;
      "        You are a global fashion market expert. Analyze this location and provide comprehensive fashion market information:";
      "        ";
      "        Location: " +:+ display_name;
      "        City: " +:+ city;
      "        Country: " +:+ country;
      "        ";
      "        Provide information in this exact JSON format:";
      "        {";
      "            " +:+ quoted "region" +:+ ": "
        +:+ quoted "geographical region (e.g., south_asia, europe, north_america, southeast_asia, middle_east, africa, oceania)" +:+ ",";
      "            " +:+ quoted "climate_zone" +:+ ": "
        +:+ quoted "climate type (tropical, subtropical, temperate, arid, continental, oceanic, mountain)" +:+ ",";
      "            " +:+ quoted "fashion_market" +:+ ": "
        +:+ quoted "market classification (indian, american, european, british, japanese, etc.)" +:+ ",";
      "            " +:+ quoted "local_brands" +:+ ": ["
        +:+ quoted "list of 6-8 popular local fashion brands actually available in this location" +:+ "],";
      "            " +:+ quoted "available_stores" +:+ ": ["
        +:+ quoted "list of 6-8 popular stores/retailers in this location" +:+ "],";
      "            " +:+ quoted "online_platforms" +:+ ": ["
        +:+ quoted "list of popular online shopping platforms for this region" +:+ "],";
      "            " +:+ quoted "cultural_considerations" +:+ ": ["
        +:+ quoted "list of 3-5 cultural factors affecting fashion choices" +:+ "],";
      "            " +:+ quoted "seasonal_info" +:+ ": "
        +:+ quoted "brief description of seasonal fashion needs and weather patterns" +:+ ",";
      "            " +:+ quoted "price_range_info" +:+ ": "
        +:+ quoted "typical price ranges and currency information" +:+ ",";
      "            " +:+ quoted "popular_styles" +:+ ": ["
        +:+ quoted "list of 4-6 popular fashion styles in this region" +:+ "],";
      "            " +:+ quoted "climate_recommendations" +:+ ": {";
      "                " +:+ quoted "fabrics" +:+ ": ["
        +:+ quoted "recommended fabric types for this climate" +:+ "],";
      "                " +:+ quoted "colors" +:+ ": ["
        +:+ quoted "suitable color palettes" +:+ "],";
      "                " +:+ quoted "styles" +:+ ": ["
        +:+ quoted "appropriate clothing styles" +:+ "],";
      "                " +:+ quoted "essentials" +:+ ": ["
        +:+ quoted "weather-essential items" +:+ "]";
      "            }";
      "        }";
      "        ";
      "        Be accurate and specific. Only include brands/stores that are actually available in this location.";
      "        Consider the local climate, culture, economy, and fashion preferences.";
      "        " ].

(** The instance state of [LocationBasedFashionAssistant]. *)
Record assistant : Type := {
  location_cache : gmap string (gmap string pyval);
  classification_cache : gmap string (gmap string pyval)
}.

Definition new_assistant : assistant :=
  {| location_cache := ∅; classification_cache := ∅ |}.

Section WithBackend.
Context (E : Backend).
(** [self.llm_chat]: the answer to the k-th call with a prompt and a task
    complexity, or the exception it raises. *)
Context (llm_chat : nat -> string -> string -> exn + string).

Definition _parse_llm_classification_response (response : string)
    : exn + gmap string pyval :=
  match search_braces response with
  | Some json_str =>
      match json_loads E json_str with
      | inr (PDict classification) => inr (validate classification)
      | inr _ => inl TypeError
      | inl JSONDecodeError => inr (_parse_text_classification_response response)
      | inl e => inl e
      end
  | None => inr (_parse_text_classification_response response)
  end.

(** Line 52: the key of the classification cache. *)
Definition location_key (location_info : gmap string pyval) : string :=
  py_str E (get_or location_info "city" (PStr EmptyString)) +:+ "-"
  +:+ py_str E (get_or location_info "country" (PStr EmptyString)).

(** Lines 58-91: the prompt sent for a location record. *)
Definition location_prompt (location_info : gmap string pyval) : string :=
  let display_name := get_or location_info "display_name" (PStr EmptyString) in
  let city := get_or location_info "city" (PStr "Unknown") in
  let country := get_or location_info "country" (PStr "Unknown") in
  classification_prompt (py_str E display_name) (py_str E city) (py_str E country).

Definition _get_llm_location_classification (location_info : gmap string pyval)
    (self : assistant) (w : world) : (exn + gmap string pyval) * assistant * world :=
  match classification_cache self !! location_key location_info with
  | Some cached => (inr cached, self, w)
  | None =>
      let prompt := location_prompt location_info in
      let answer := llm_chat (List.length (chat_log w)) prompt "complex" in
      let w := log_chat (prompt, "complex", true) w in
      match answer with
      | inr response =>
          match _parse_llm_classification_response response with
          | inr classification =>
              (inr classification,
               {| location_cache := location_cache self;
                  classification_cache :=
                    <[location_key location_info := classification]>
                      (classification_cache self) |},
               w)
          | inl _ => (_get_basic_fallback_classification location_info, self, w)
          end
      | inl _ => (_get_basic_fallback_classification location_info, self, w)
      end
  end.

(** [d.get(k)] on a value that has to be a dictionary. *)
Definition get_attr (v : pyval) (k : string) : exn + pyval :=
  match v with
  | PDict d => inr (get d k)
  | _ => inl AttributeError
  end.

Definition get_enhanced_location_info (location : string) (self : assistant) (w : world)
    : (exn + option (gmap string pyval)) * assistant * world :=
  match location_cache self !! location with
  | Some cached => (inr (Some cached), self, w)
  | None =>
      let '(polygon_data, w) := Geo.get_user_location_polygon E location w in
      match polygon_data with
      | Some d =>
          if truthy (PDict d) then
            let display_name := get_or d "display_name" (PStr EmptyString) in
            let address_details := get_or d "address_details" (PDict ∅) in
            match get_attr address_details "city", get_attr address_details "town",
                  get_attr address_details "village", get_attr address_details "state",
                  get_attr address_details "country" with
            | inr city, inr town, inr village, inr state, inr country =>
                let location_info : gmap string pyval :=
                  <["original" := PStr location]>
                  (<["display_name" := display_name]>
                  (<["city" := py_or (py_or city town) village]>
                  (<["state" := state]>
                  (<["country" := country]>
                  (<["latitude" := get_or d "latitude" (PInt 0)]>
                  (<["longitude" := get_or d "longitude" (PInt 0)]>
                  (<["source" := get_or d "source" (PStr "nominatim")]> ∅))))))) in
                match _get_llm_location_classification location_info self w with
                | (inr llm_classification, self, w) =>
                    let location_info := llm_classification ∪ location_info in
                    (inr (Some location_info),
                     {| location_cache := <[location := location_info]> (location_cache self);
                        classification_cache := classification_cache self |},
                     w)
                | (inl e, self, w) => (inl e, self, w)
                end
            | _, _, _, _, _ => (inl AttributeError, self, w)
            end
          else (inr None, self, w)
      | None => (inr None, self, w)
      end
  end.

End WithBackend.

(** The object that lines 112-115 decode from a response, if any. *)
Definition decoded_object (E : Backend) (response : string) : option (gmap string pyval) :=
  match search_braces response with
  | Some json_str =>
      match json_loads E json_str with
      | inr (PDict classification) => Some classification
      | _ => None
      end
  | None => None
  end.

(** The exception that [json.loads] raises at line 115 and that the
    handler of line 140 does not catch, if any. *)
Definition decoder_error (E : Backend) (response : string) : option exn :=
  match search_braces response with
  | Some json_str =>
      match json_loads E json_str with
      | inl JSONDecodeError => None
      | inl e => Some e
      | inr _ => None
      end
  | None => None
  end.

(** A successful decode of a text that opens with a brace is an object,
    as it is for [json.loads]. *)
Definition decodes_objects (E : Backend) : Prop :=
  forall s v, json_loads E (String "{" s) = inr v -> exists d, v = PDict d.

Definition as_list (o : option pyval) : pyval :=
  match o with
  | Some (PList l) => PList l
  | _ => PList []
  end.

(** What the record is after the validation of lines 117-133, key by
    key, for a decoded object [o]. *)
Definition validated_entry (o : gmap string pyval) (k : string) : option pyval :=
  if decide (k ∈ required_fields) then Some (default (PStr "unknown") (o !! k))
  else if decide (k ∈ list_fields) then Some (as_list (o !! k))
  else if decide (k = "climate_recommendations")
       then Some (default empty_climate_recommendations (o !! k))
       else o !! k.

(** The shape every record of the text fallback has. *)
Definition text_shape (d : gmap string pyval) : Prop :=
  (forall k, k ∈ text_scalar_fields -> exists s, d !! k = Some (PStr s))
  /\ (forall k, k ∈ list_fields -> exists l, d !! k = Some (PList l))
  /\ d !! "climate_recommendations" = Some empty_climate_recommendations.

End Location.

(** ** Concrete collaborators and states for the examples *)
Module Examples.

(** [json.loads] on the texts of the examples, which are short and flat:
    the decoded value, or [JSONDecodeError]. *)
Definition loads (s : string) : exn + pyval :=
  match Json.loads s with
  | Some v => inr v
  | None => inl JSONDecodeError
  end.

(** [str(v)] on the values the examples print. *)
Definition str_of (v : pyval) : string :=
  match v with
  | PStr s => s
  | PNone => "None"
  | PBool true => "True"
  | PBool false => "False"
  | _ => "..."
  end.

(** A world in which every completion attempt raises and Nominatim finds
    nothing. *)
Definition offline : Backend :=
  {| py_str := str_of;
     json_loads := loads;
     random_choice := fun _ => 0;
     generate_content := fun _ _ _ => None;
     nominatim := fun _ _ => None |}.

(** A world whose model answers every prompt with [text]. *)
Definition answering (text : string) : Backend :=
  {| py_str := str_of;
     json_loads := loads;
     random_choice := fun k => k;
     generate_content := fun _ _ _ => Some text;
     nominatim := fun _ _ => None |}.

Definition four_unknown : string :=
  join newline
    [ "Location: unknown"; "Body Type: unknown";
      "Style Preferences: unknown"; "Budget: unknown" ].

Definition budget_reply : string :=
  join newline
    [ "Location: unknown"; "Body Type: unknown";
      "Style Preferences: unknown"; "Budget: $50-100" ].

Definition known_user : gmap string pyval :=
  <["location" := PStr "Pune"]> (<["budget" := PStr "$200"]> ∅).

Definition one_user : world :=
  set_user_preferences (insert "web_user" known_user) empty_world.

(** Scenario 4 of the specification. *)
Definition three_field_json : string :=
  "{" +:+ Location.quoted "region" +:+ ":" +:+ Location.quoted "south_asia" +:+ ","
  +:+ Location.quoted "climate_zone" +:+ ":" +:+ Location.quoted "tropical" +:+ ","
  +:+ Location.quoted "fashion_market" +:+ ":" +:+ Location.quoted "indian" +:+ "}".

Definition chat_raises : nat -> string -> string -> exn + string :=
  fun _ _ _ => inl CompletionError.

Definition chat_answers (text : string) : nat -> string -> string -> exn + string :=
  fun _ _ _ => inr text.

Definition paris_hit : geo_hit :=
  {| hit_display_name := PStr "Paris, France";
     hit_latitude := PFloat 4632072772483080310;   (* 48.8566 *)
     hit_longitude := PFloat 4612479102321767848;  (* 2.3522 *)
     hit_bbox := PList [];
     hit_address := PDict (<["country" := PStr "France"]> ∅);
     hit_place_id := PInt 1;
     hit_importance := PInt 1 |}.

(** A world in which Nominatim knows every place as Paris. *)
Definition online : Backend :=
  {| py_str := str_of;
     json_loads := loads;
     random_choice := fun _ => 0;
     generate_content := fun _ _ _ => None;
     nominatim := fun _ _ => Some paris_hit |}.

End Examples.

(** ** The rest of gemini_utils.py, geo.py and location.py *)

(** *** Model performance counters (gemini_utils.py, lines 192-211) *)
Module Performance.

(** [model_performance]: one pair (success, failures) per model, in the
    order the dictionary was filled at import, that of the roster.  Keys
    are never added or removed afterwards. *)
Definition model_performance : list (string * (nat * nat)) :=
  map (fun model => (model, (0, 0))) Config.available_models.

(** [model_performance[model_name]], [None] when the model is no key. *)
Fixpoint stats_of (model_name : string) (performance : list (string * (nat * nat)))
    : option (nat * nat) :=
  match performance with
  | [] => None
  | (model, stats) :: rest =>
      if String.eqb model model_name then Some stats else stats_of model_name rest
  end.

(** [track_model_performance]; [None] stands for the KeyError raised for
    a model that is not a key. *)
Fixpoint track_model_performance (model_name : string) (success : bool)
    (performance : list (string * (nat * nat))) : option (list (string * (nat * nat))) :=
  match performance with
  | [] => None
  | (model, (successes, failures)) :: rest =>
      if String.eqb model model_name then
        Some ((model, if success then (S successes, failures)
                      else (successes, S failures)) :: rest)
      else
        match track_model_performance model_name success rest with
        | Some rest' => Some ((model, (successes, failures)) :: rest')
        | None => None
        end
  end.

(** One round of the loop of lines 204-210.  The ratio [success / total]
    is kept as the pair of its numerator and denominator and compared by
    cross-multiplication, which orders two such quotients as their
    binary64 values are ordered as long as the totals stay below 2^26;
    [best_ratio] starts as 0, the pair (0, 1). *)
Definition best_step (best : option string * (nat * nat))
    (entry : string * (nat * nat)) : option string * (nat * nat) :=
  let '(best_model, (best_num, best_den)) := best in
  let '(model, (successes, failures)) := entry in
  let total := successes + failures in
  if (0 <? total)%nat then
    if (best_num * total <? successes * best_den)%nat
    then (Some model, (successes, total))
    else best
  else best.

Definition get_best_performing_model (performance : list (string * (nat * nat)))
    : string :=
  let '(best_model, _) := fold_left best_step performance (None, (0, 1)) in
  match best_model with
  | Some model =>
      if String.eqb model EmptyString
      then List.nth 0 Config.available_models EmptyString
      else model
  | None => List.nth 0 Config.available_models EmptyString
  end.

End Performance.

(** *** The chat transport entry point (gemini_utils.py, lines 226-231) *)
Module Transport.

(** [s.replace(old, new)] for a non-empty [old]. *)
Definition replace (old new s : string) : string := join new (split old s).

(** The two characters backslash and n. *)
Definition escaped_newline : string := "\n".

Section WithBackend.
Context (E : Backend).
(** [str(e)] for a caught exception. *)
Context (exn_str : exn -> string).

Definition handle_telegram_message (message_text user_id : string) (w : world)
    : string * world :=
  match GeminiUtils.process_user_message E message_text user_id w with
  | (inr response, w) => (replace escaped_newline newline response, w)
  | (inl e, w) =>
      ("Sorry, I encountered an error: " +:+ exn_str e +:+ ". Please try again! 😊", w)
  end.

End WithBackend.
End Transport.

(** *** geo.py, lines 54-69 *)
Module GeoInfo.

Definition not_found : gmap string pyval :=
  <["city" := PNone]> (<["country" := PNone]> (<["found" := PBool false]> ∅)).

Section WithBackend.
Context (E : Backend).

(** [LocationAPI.get_location_info] *)
Definition get_location_info (location : string) (w : world)
    : (exn + gmap string pyval) * world :=
  let '(data, w) := Geo.get_user_location_polygon E location w in
  match data with
  | Some d =>
      if truthy (PDict d) then
        let address := get_or d "address" (PDict ∅) in
        match Location.get_attr address "city", Location.get_attr address "town",
              Location.get_attr address "village", Location.get_attr address "state",
              Location.get_attr address "country" with
        | inr city, inr town, inr village, inr state, inr country =>
            (inr (<["city" := py_or (py_or city town) village]>
                 (<["state" := state]>
                 (<["country" := country]>
                 (<["display_name" := get d "display_name"]>
                 (<["found" := PBool true]> ∅))))), w)
        | _, _, _, _, _ => (inl AttributeError, w)
        end
      else (inr not_found, w)
  | None => (inr not_found, w)
  end.

End WithBackend.
End GeoInfo.

(** *** location.py, lines 220-252 *)
Module Climate.

Definition recommendations (fabrics colors styles essentials : list string)
    : gmap string pyval :=
  <["fabrics" := Location.strs fabrics]>
  (<["colors" := Location.strs colors]>
  (<["styles" := Location.strs styles]>
  (<["essentials" := Location.strs essentials]> ∅))).

Definition tropical : gmap string pyval :=
  recommendations
    ["cotton"; "linen"; "breathable synthetics"; "modal"]
    ["light colors"; "pastels"; "whites"; "bright colors"]
    ["loose fitting"; "sleeveless"; "midi dresses"; "palazzo pants"]
    ["sun hat"; "sunglasses"; "light scarf"; "comfortable sandals"].

Definition arid : gmap string pyval :=
  recommendations
    ["cotton"; "linen"; "lightweight wool"]
    ["earth tones"; "light colors"; "avoid dark colors"]
    ["full coverage"; "loose fitting"; "long sleeves"]
    ["wide-brimmed hat"; "sunglasses"; "scarf"; "closed shoes"].

Definition temperate : gmap string pyval :=
  recommendations
    ["cotton"; "wool blends"; "denim"; "knits"]
    ["versatile neutrals"; "seasonal colors"]
    ["layerable pieces"; "versatile basics"]
    ["light jacket"; "comfortable shoes"; "scarf"].

(** [fallback_recs.get(climate_zone, fallback_recs['temperate'])] for a
    string [climate_zone]. *)
Definition fallback_recs (climate_zone : string) : gmap string pyval :=
  if String.eqb climate_zone "tropical" then tropical
  else if String.eqb climate_zone "arid" then arid
  else temperate.

(** [any(d.values())] *)
Definition any_value (d : gmap string pyval) : bool :=
  existsb (fun entry => truthy (snd entry)) (map_to_list d).

(** [get_climate_appropriate_recommendations]; the [season] argument is
    not read.  A value that is truthy but no dictionary has no [values],
    and a list or a dictionary cannot be a dictionary key. *)
Definition get_climate_appropriate_recommendations (location_info : gmap string pyval)
    : exn + gmap string pyval :=
  let climate_recs := get_or location_info "climate_recommendations" (PDict ∅) in
  let own : exn + option (gmap string pyval) :=
    if truthy climate_recs then
      match climate_recs with
      | PDict d => inr (if any_value d then Some d else None)
      | _ => inl AttributeError
      end
    else inr None in
  match own with
  | inl e => inl e
  | inr (Some d) => inr d
  | inr None =>
      match get_or location_info "climate_zone" (PStr "temperate") with
      | PStr climate_zone => inr (fallback_recs climate_zone)
      | PList _ | PDict _ => inl TypeError
      | _ => inr temperate
      end
  end.

End Climate.

(** *** The record that location.py builds for a place that is found *)
Module Pipeline.

(** Lines 25-38 for the record that [get_user_location_polygon] returns
    for [hit]: that record has no address_details key, so the default
    empty dictionary is read and city, state and country are None. *)
Definition built_record (location : string) (hit : geo_hit) : gmap string pyval :=
  <["original" := PStr location]>
  (<["display_name" := hit_display_name hit]>
  (<["city" := PNone]>
  (<["state" := PNone]>
  (<["country" := PNone]>
  (<["latitude" := hit_latitude hit]>
  (<["longitude" := hit_longitude hit]>
  (<["source" := PStr "nominatim"]> ∅))))))).

(** Line 52 for such a record: the same key for every place. *)
Definition shared_key (E : Backend) : string :=
  py_str E PNone +:+ "-" +:+ py_str E PNone.

End Pipeline.

(** *** The list format that the classification prompt asks for *)
Module TextFormat.

(** An item that the format carries as it is: not empty, without a
    double quote, and without white space at either end. *)
Definition plain_item (item : string) : bool :=
  negb (String.eqb item EmptyString)
  && all_chars (fun c => negb (Ascii.eqb c (ascii_of_nat 34))) item
  && String.eqb (strip item) item.

(** A key, a colon, and the items in double quotes between brackets. *)
Definition list_line (key : string) (items : list string) : string :=
  key +:+ ": [" +:+ join ", " (map Location.quoted items) +:+ "]".

End TextFormat.

(** *** The shape of the preference store *)
Module StoreShape.

(** Whatever is stored under enhanced_location is a dictionary, as
    [generate_fashion_response] assumes when it calls [get] on it. *)
Definition well_formed (w : world) : Prop :=
  forall u record v,
    user_preferences w !! u = Some record ->
    record !! "enhanced_location" = Some v ->
    exists d, v = PDict d.

End StoreShape.

(** * Properties *)

#[local] Open Scope list_scope.

(** ** Strings *)
Module PyFacts.

Lemma alnum_not_space (c : ascii) : is_alnum c = true -> isspace c = false.
Proof.
  destruct c as [[] [] [] [] [] [] [] []]; vm_compute; congruence.
Qed.

(** A token made of letters and digits is the only token of itself. *)
Lemma split_ws_alnum (t : string) : fullmatch_alnum t = true -> split_ws t = [t].
Proof.
  destruct t as [|c t]; [discriminate|].
  unfold fullmatch_alnum.
  revert c. induction t as [|c' t IH]; intros c H.
  - simpl in H. apply andb_prop in H as [Hc _].
    simpl. now rewrite (alnum_not_space c Hc).
  - change (all_chars is_alnum (String c (String c' t)))
      with (is_alnum c && all_chars is_alnum (String c' t)) in H.
    apply andb_prop in H as [Hc Ht].
    change (split_ws (String c (String c' t)))
      with (if isspace c then split_ws (String c' t)
            else if isspace c' then String c EmptyString :: split_ws (String c' t)
                 else match split_ws (String c' t) with
                      | t0 :: ts => String c t0 :: ts
                      | [] => [String c EmptyString]
                      end).
    rewrite (alnum_not_space c Hc).
    assert (Hc' : is_alnum c' = true).
    { simpl in Ht. now apply andb_prop in Ht as [? _]. }
    rewrite (alnum_not_space c' Hc').
    now rewrite (IH c' Ht).
Qed.

Lemma partition_split_length (sep s : string) :
  contains sep s = true -> sep <> EmptyString ->
  (2 <= List.length (split sep s))%nat.
Proof.
  unfold contains, split. intros H Hsep.
  destruct (partition sep s) as [[before after]|] eqn:Hp; [|discriminate].
  destruct s as [|c s].
  - destruct sep; [congruence | discriminate].
  - simpl String.length. cbn [split_fuel]. rewrite Hp.
    cbn [List.length]. destruct (String.length s); cbn [split_fuel];
      [|destruct (partition sep after) as [[? ?]|]]; cbn [List.length]; lia.
Qed.

End PyFacts.

(** ** The completion adapter and the orchestrator *)
Module GeminiUtilsFacts.
Import GeminiUtils.

Section WithBackend.
Context (E : Backend).

(** Selecting a model reads the draw counter only and leaves every log
    and the preference store alone. *)
Lemma select_model_frame tc rnd w :
  let w' := snd (select_model E tc rnd w) in
  user_preferences w' = user_preferences w /\ chat_log w' = chat_log w
  /\ generate_log w' = generate_log w /\ adapter_log w' = adapter_log w
  /\ request_log w' = request_log w.
Proof. unfold select_model. destruct rnd; cbn; auto. Qed.

Lemma select_model_log_chat c tc rnd w :
  select_model E tc rnd (log_chat c w)
  = (fst (select_model E tc rnd w), log_chat c (snd (select_model E tc rnd w))).
Proof. unfold select_model. destruct rnd; reflexivity. Qed.

(** The shape of every run of [_llm_chat]: one attempt with the selected
    model, then at most one more, with the fallback model. *)
Lemma llm_chat_unfold prompt tc rnd w :
  let m := fst (select_model E tc rnd w) in
  let w1 := log_chat (prompt, tc, rnd) (snd (select_model E tc rnd w)) in
  let k := List.length (generate_log w) in
  _llm_chat E prompt tc rnd w =
    match generate_content E k m prompt with
    | Some text => (strip text, log_generate (m, prompt) w1)
    | None =>
        let w2 := log_generate (fallback_model_for m, prompt)
                    (log_generate (m, prompt) w1) in
        match generate_content E (S k) (fallback_model_for m) prompt with
        | Some text => (strip text, w2)
        | None => (apology_reply, w2)
        end
    end.
Proof.
  intros m w1 k. unfold _llm_chat. rewrite select_model_log_chat.
  fold m. fold w1. unfold attempt.
  assert (Hk : List.length (generate_log w1) = k).
  { unfold w1, k. cbn. now destruct (select_model_frame tc rnd w) as (_ & _ & -> & _). }
  rewrite Hk.
  destruct (generate_content E k m prompt) as [text|]; cbn [option_map]; [reflexivity|].
  assert (Hk' : List.length (generate_log (log_generate (m, prompt) w1)) = S k).
  { unfold log_generate at 1. cbn [generate_log]. rewrite length_app, Hk. cbn. lia. }
  rewrite Hk'.
  now destruct (generate_content E (S k) (fallback_model_for m) prompt).
Qed.

(** A call of [_llm_chat] is logged once, and the preference store and the
    location logs are not touched. *)
Lemma llm_chat_frame prompt tc rnd w :
  let w' := snd (_llm_chat E prompt tc rnd w) in
  user_preferences w' = user_preferences w
  /\ chat_log w' = chat_log w ++ [(prompt, tc, rnd)]
  /\ adapter_log w' = adapter_log w /\ request_log w' = request_log w.
Proof.
  rewrite llm_chat_unfold.
  destruct (select_model_frame tc rnd w) as (Hp & Hc & _ & Ha & Hr).
  destruct (generate_content E _ _ prompt);
    [|destruct (generate_content E _ _ prompt)]; cbn; rewrite ?Hp, ?Hc, ?Ha, ?Hr; auto.
Qed.

Lemma fallback_model_for_differs m : fallback_model_for m <> m.
Proof.
  unfold fallback_model_for.
  destruct (String.eqb m "models/gemini-1.5-flash") eqn:Hm.
  - apply String.eqb_eq in Hm. subst m. discriminate.
  - apply String.eqb_neq in Hm. congruence.
Qed.

(** C5.  When the attempt with the selected model raises and the attempt
    with the fallback model raises as well, [_llm_chat] returns the fixed
    apology string; it made exactly those two attempts.  The function
    returns a string in every case: no exception leaves it. *)
Theorem llm_chat_double_failure prompt tc rnd w m :
  fst (select_model E tc rnd w) = m ->
  generate_content E (List.length (generate_log w)) m prompt = None ->
  generate_content E (S (List.length (generate_log w))) (fallback_model_for m) prompt = None ->
  fst (_llm_chat E prompt tc rnd w) = apology_reply
  /\ generate_log (snd (_llm_chat E prompt tc rnd w))
     = generate_log w ++ [(m, prompt); (fallback_model_for m, prompt)].
Proof.
  intros Hm H1 H2. rewrite llm_chat_unfold. rewrite Hm, H1. cbn zeta. rewrite H2.
  split; [reflexivity|]. cbn.
  destruct (select_model_frame tc rnd w) as (_ & _ & -> & _).
  now rewrite <- app_assoc.
Qed.

(** C9.  When the first attempt of a call fails, the second attempt is
    made with a model different from the one that failed: with
    models/gemini-1.5-flash, unless that is the one that failed, and then
    with models/gemini-2.0-flash. *)
Theorem fallback_model_is_another prompt tc rnd w m :
  fst (select_model E tc rnd w) = m ->
  generate_content E (List.length (generate_log w)) m prompt = None ->
  exists fallback_model,
    generate_log (snd (_llm_chat E prompt tc rnd w))
    = generate_log w ++ [(m, prompt); (fallback_model, prompt)]
    /\ fallback_model <> m
    /\ fallback_model
       = (if decide (m = "models/gemini-1.5-flash")
          then "models/gemini-2.0-flash" else "models/gemini-1.5-flash").
Proof.
  intros Hm H1. exists (fallback_model_for m). split; [|split].
  - rewrite llm_chat_unfold. rewrite Hm, H1. cbn zeta.
    destruct (select_model_frame tc rnd w) as (_ & _ & Hg & _).
    destruct (generate_content E (S _) _ prompt); cbn; rewrite Hg;
      now rewrite <- app_assoc.
  - apply fallback_model_for_differs.
  - clear Hm H1. unfold fallback_model_for. case_decide as Hd.
    + now rewrite Hd.
    + apply String.eqb_neq in Hd. now rewrite Hd.
Qed.

(** *** What fact extraction leaves alone *)

Lemma geo_lookup_frame q w :
  let w' := snd (Geo.get_user_location_polygon E q w) in
  user_preferences w' = user_preferences w /\ chat_log w' = chat_log w.
Proof.
  unfold Geo.get_user_location_polygon.
  destruct (_ || _); [cbn; auto|].
  destruct (nominatim E _ q); cbn; auto.
Qed.

Lemma enhanced_location_frame location w :
  let w' := snd (get_enhanced_location_info E location w) in
  user_preferences w' = user_preferences w /\ chat_log w' = chat_log w.
Proof.
  unfold get_enhanced_location_info.
  destruct (_ || _); [cbn; auto|].
  pose proof (geo_lookup_frame location w) as Hg.
  destruct (Geo.get_user_location_polygon E location w) as [[d|] w1]; cbn in Hg |- *;
    [destruct (negb _)|]; cbn; exact Hg.
Qed.

Lemma process_line_chat_log user_id line w :
  chat_log (process_line E user_id line w) = chat_log w.
Proof.
  unfold process_line.
  repeat match goal with
         | |- context [if ?b then _ else _] => destruct b
         end; try reflexivity.
  all: pose proof (enhanced_location_frame
                     (value_after "Location:" line)
                     (store_field user_id "location"
                        (PStr (value_after "Location:" line)) w)) as [_ Hc];
    destruct (get_enhanced_location_info E _ _) as [enhanced w1];
    cbn in Hc; destruct (truthy enhanced); cbn; exact Hc.
Qed.

Lemma fold_process_line_chat_log user_id lines w :
  chat_log (fold_left (fun w line => process_line E user_id line w) lines w) = chat_log w.
Proof.
  revert w. induction lines as [|line lines IH]; intros w; cbn; [reflexivity|].
  now rewrite IH, process_line_chat_log.
Qed.

(** Fact extraction calls [_llm_chat] exactly once. *)
Lemma extract_user_info_chat_log message user_id w :
  chat_log (snd (extract_user_info E message user_id w))
  = chat_log w ++ [(extract_user_info_prompt message, "medium", true)].
Proof.
  unfold extract_user_info.
  pose proof (llm_chat_frame (extract_user_info_prompt message) "medium" true w)
    as (_ & Hc & _).
  destruct (_llm_chat E _ _ _ w) as [extracted w1]. cbn in Hc. cbn [snd].
  rewrite fold_process_line_chat_log.
  now destruct (user_preferences w1 !! user_id).
Qed.

(** C1, as the code has it.  For every message whose trimmed, lower-cased
    form is one of the greeting tokens, [process_user_message] returns the
    fixed greeting reply, and during that call [_llm_chat] is invoked
    exactly once: by the fact extraction that runs before the greeting
    test.  It is not invoked for intent classification or for the reply. *)
Theorem greeting_shortcut message user_id w :
  mem (lower (strip message)) greetings = true ->
  fst (process_user_message E message user_id w) = inr greeting_reply
  /\ chat_log (snd (process_user_message E message user_id w))
     = chat_log w ++ [(extract_user_info_prompt message, "medium", true)].
Proof.
  intros Hg. unfold process_user_message.
  pose proof (extract_user_info_chat_log message user_id w) as Hc.
  destruct (extract_user_info E message user_id w) as [info w1]. cbn [snd] in Hc.
  rewrite Hg. cbn [fst snd]. auto.
Qed.

(** C2, as the code has it.  For every message whose trimmed form consists
    of letters and digits only and is not a greeting token,
    [process_user_message] returns the fixed not-understood reply, and
    during that call [_llm_chat] is invoked exactly once: by the fact
    extraction that runs first.  The message asdf123 with an empty
    preference store is an instance. *)
Theorem single_token_shortcut message user_id w :
  fullmatch_alnum (strip message) = true ->
  mem (lower (strip message)) greetings = false ->
  fst (process_user_message E message user_id w) = inr not_understood_reply
  /\ chat_log (snd (process_user_message E message user_id w))
     = chat_log w ++ [(extract_user_info_prompt message, "medium", true)].
Proof.
  intros Ha Hg. unfold process_user_message.
  pose proof (extract_user_info_chat_log message user_id w) as Hc.
  destruct (extract_user_info E message user_id w) as [info w1]. cbn [snd] in Hc.
  rewrite Hg, Ha, (PyFacts.split_ws_alnum _ Ha). cbn. auto.
Qed.

(** *** Fact extraction, line by line *)

Lemma process_line_labeled user_id line w :
  process_line E user_id line w
  = match first_label line with
    | Some l => apply_label E user_id l (value_after (label_token l) line) w
    | None => w
    end.
Proof.
  unfold process_line, first_label, labels_by_priority, apply_label.
  cbn [List.find label_token label_key].
  destruct (contains "Location:" line).
  { now destruct (String.eqb _ "unknown"). }
  destruct (contains "Body Type:" line).
  { now destruct (String.eqb _ "unknown"). }
  destruct (contains "Style Preferences:" line).
  { now destruct (String.eqb _ "unknown"). }
  destruct (contains "Budget:" line); [|reflexivity].
  now destruct (String.eqb _ "unknown").
Qed.

Lemma store_field_prefs user_id key v w record :
  user_preferences w !! user_id = Some record ->
  user_preferences (store_field user_id key v w)
  = <[user_id := <[key := v]> record]> (user_preferences w).
Proof. intros H. cbn. now apply alter_alt_Some. Qed.

Lemma store_field_stored_ne user_id key v w u k :
  k <> key -> stored (store_field user_id key v w) u k = stored w u k.
Proof.
  intros Hk. unfold stored. cbn. rewrite lookup_alter. case_decide as Hu.
  - subst u. destruct (user_preferences w !! user_id); cbn; [|reflexivity].
    now apply lookup_insert_ne.
  - reflexivity.
Qed.

Lemma enhanced_location_stored location w u k :
  stored (snd (get_enhanced_location_info E location w)) u k = stored w u k.
Proof.
  unfold stored. now destruct (enhanced_location_frame location w) as [-> _].
Qed.

Lemma label_key_inj l l' : label_key l = label_key l' -> l = l'.
Proof. destruct l, l'; cbn; congruence. Qed.

(** A label's update leaves the keys of the other labels alone. *)
Lemma apply_label_other user_id l v w u l' :
  l' <> l ->
  stored (apply_label E user_id l v w) u (label_key l') = stored w u (label_key l').
Proof.
  intros Hl. unfold apply_label. destruct (String.eqb v "unknown"); [reflexivity|].
  assert (Hk : label_key l' <> label_key l).
  { intros H. now apply label_key_inj in H. }
  destruct l; try (now apply store_field_stored_ne).
  pose proof (enhanced_location_stored v
                (store_field user_id "location" (PStr v) w) u (label_key l')) as He.
  destruct (get_enhanced_location_info E v _) as [enhanced w1]. cbn [snd] in He.
  destruct (truthy enhanced).
  - rewrite store_field_stored_ne; [|destruct l'; cbn; congruence].
    rewrite He. now apply store_field_stored_ne.
  - rewrite He. now apply store_field_stored_ne.
Qed.

(** C10, as the code has it.  A line is read under the first label, in
    the order Location, Body Type, Style Preferences, Budget, whose token
    occurs in it, and only that label's update is applied: the keys of
    the three other labels keep their values for every user, also when
    the line holds several tokens.  The Location update also stores the
    looked-up enhanced_location.  A line without any token changes
    nothing.  Tokens are matched as case-sensitive substrings. *)
Theorem line_updates_first_label user_id line w :
  process_line E user_id line w
  = match first_label line with
    | Some l => apply_label E user_id l (value_after (label_token l) line) w
    | None => w
    end
  /\ forall l' u,
       first_label line <> Some l' ->
       stored (process_line E user_id line w) u (label_key l')
       = stored w u (label_key l').
Proof.
  split; [apply process_line_labeled|].
  intros l' u Hl. rewrite process_line_labeled.
  destruct (first_label line) as [l|]; [|reflexivity].
  apply apply_label_other. congruence.
Qed.

(** *** Fact extraction, whole responses *)

Lemma fold_unknown_lines user_id lines w :
  forallb (fun line =>
             match labeled_value line with
             | Some (_, v) => String.eqb v "unknown"
             | None => true
             end) lines = true ->
  fold_left (fun w line => process_line E user_id line w) lines w = w.
Proof.
  induction lines as [|line lines IH]; cbn [forallb fold_left]; [reflexivity|].
  intros H. apply andb_prop in H as [Hline Hrest].
  rewrite process_line_labeled. unfold labeled_value in Hline.
  destruct (first_label line) as [l|]; [|now apply IH].
  unfold apply_label. rewrite Hline. now apply IH.
Qed.

(** C6.  When the user already has a record and every labelled value of
    the model's response is the literal unknown, fact extraction leaves
    the whole preference store as it was and returns the record
    unchanged. *)
Theorem all_unknown_keeps_record message user_id w record :
  user_preferences w !! user_id = Some record ->
  all_values_unknown
    (fst (_llm_chat E (extract_user_info_prompt message) "medium" true w)) = true ->
  user_preferences (snd (extract_user_info E message user_id w)) = user_preferences w
  /\ fst (extract_user_info E message user_id w) = record.
Proof.
  intros Hrec Hall. unfold extract_user_info.
  destruct (llm_chat_frame (extract_user_info_prompt message) "medium" true w)
    as (Hp & _).
  destruct (_llm_chat E _ _ _ w) as [extracted w1]. cbn [fst snd] in *.
  rewrite Hp, Hrec. unfold all_values_unknown, response_lines in Hall.
  rewrite (fold_unknown_lines _ _ _ Hall). rewrite Hp, Hrec. auto.
Qed.

Lemma last_budget_from found lines :
  fold_left (fun found line =>
               match labeled_value line with
               | Some (BudgetLabel, v) =>
                   if String.eqb v "unknown" then found else Some v
               | _ => found
               end) lines found
  = match last_budget_of lines with
    | Some v => Some v
    | None => found
    end.
Proof.
  unfold last_budget_of. revert found.
  induction lines as [|line lines IH]; intros found; cbn [fold_left]; [reflexivity|].
  rewrite IH. rewrite (IH (match labeled_value line with
                           | Some (BudgetLabel, v) =>
                               if String.eqb v "unknown" then None else Some v
                           | _ => None
                           end)).
  destruct (fold_left _ lines None); [reflexivity|].
  destruct (labeled_value line) as [[[] v]|]; try reflexivity.
  now destruct (String.eqb v "unknown").
Qed.

Lemma fold_budget_lines user_id lines : forall w record,
  user_preferences w !! user_id = Some record ->
  forallb (fun line =>
             match labeled_value line with
             | Some (BudgetLabel, _) => true
             | Some (_, v) => String.eqb v "unknown"
             | None => true
             end) lines = true ->
  user_preferences (fold_left (fun w line => process_line E user_id line w) lines w)
  = match last_budget_of lines with
    | Some v => <[user_id := <["budget" := PStr v]> record]> (user_preferences w)
    | None => user_preferences w
    end.
Proof.
  induction lines as [|line lines IH]; intros w record Hrec Hall;
    cbn [forallb fold_left] in *; [reflexivity|].
  apply andb_prop in Hall as [Hline Hrest].
  unfold last_budget_of. cbn [fold_left]. rewrite last_budget_from.
  rewrite process_line_labeled. unfold labeled_value in Hline |- *.
  pose proof (IH w record Hrec Hrest) as Hsame.
  destruct (first_label line) as [l|];
    [|destruct (last_budget_of lines); exact Hsame].
  unfold apply_label.
  destruct (String.eqb (value_after (label_token l) line) "unknown") eqn:Hv.
  { destruct l; destruct (last_budget_of lines); exact Hsame. }
  destruct l; try discriminate. clear Hsame.
  cbn [label_key label_token] in *.
  set (v1 := value_after "Budget:" line) in *.
  rewrite (IH (store_field user_id "budget" (PStr v1) w) (<["budget" := PStr v1]> record));
    [|rewrite (store_field_prefs _ _ _ _ _ Hrec); apply lookup_insert_eq|exact Hrest].
  rewrite (store_field_prefs _ _ _ _ _ Hrec).
  destruct (last_budget_of lines) as [v|]; [|reflexivity].
  now rewrite !insert_insert_eq.
Qed.

(** C7.  When the user already has a record and the model's response
    supplies a value other than unknown under the Budget label only,
    fact extraction writes that value (the last one, if there are
    several) under budget and changes nothing else: location,
    enhanced_location, body_type and style_preferences of the returned
    record are those of the record before, and the records of the other
    users are not touched. *)
Theorem budget_only_updates_budget message user_id w record v :
  user_preferences w !! user_id = Some record ->
  only_budget_supplied
    (fst (_llm_chat E (extract_user_info_prompt message) "medium" true w)) = true ->
  last_budget
    (fst (_llm_chat E (extract_user_info_prompt message) "medium" true w)) = Some v ->
  user_preferences (snd (extract_user_info E message user_id w))
  = <[user_id := <["budget" := PStr v]> record]> (user_preferences w)
  /\ fst (extract_user_info E message user_id w) = <["budget" := PStr v]> record
  /\ fst (extract_user_info E message user_id w) !! "budget" = Some (PStr v)
  /\ fst (extract_user_info E message user_id w) !! "location" = record !! "location"
  /\ fst (extract_user_info E message user_id w) !! "enhanced_location"
     = record !! "enhanced_location"
  /\ fst (extract_user_info E message user_id w) !! "body_type" = record !! "body_type"
  /\ fst (extract_user_info E message user_id w) !! "style_preferences"
     = record !! "style_preferences".
Proof.
  intros Hrec Honly Hlast. unfold extract_user_info.
  destruct (llm_chat_frame (extract_user_info_prompt message) "medium" true w)
    as (Hp & _).
  destruct (_llm_chat E _ _ _ w) as [extracted w1]. cbn [fst snd] in *.
  rewrite Hp, Hrec. unfold only_budget_supplied, last_budget, response_lines in *.
  assert (Hrec1 : user_preferences w1 !! user_id = Some record) by now rewrite Hp.
  rewrite (fold_budget_lines _ _ _ _ Hrec1 Honly), Hlast, Hp.
  rewrite lookup_insert_eq. cbn [default].
  repeat split; try reflexivity.
  - apply lookup_insert_eq.
  - now apply lookup_insert_ne.
  - now apply lookup_insert_ne.
  - now apply lookup_insert_ne.
  - now apply lookup_insert_ne.
Qed.

End WithBackend.

(** *** Instances *)

Import Examples.

Lemma llm_chat_double_failure_offline :
  fst (_llm_chat offline "Hi" "medium" true empty_world) = apology_reply
  /\ generate_log (snd (_llm_chat offline "Hi" "medium" true empty_world))
     = generate_log empty_world
       ++ [("models/gemini-1.5-flash", "Hi");
           (fallback_model_for "models/gemini-1.5-flash", "Hi")].
Proof.
  apply (llm_chat_double_failure offline "Hi" "medium" true empty_world
           "models/gemini-1.5-flash"); reflexivity.
Defined.

Lemma fallback_model_is_another_offline :
  exists fallback_model,
    generate_log (snd (_llm_chat offline "Hi" "simple" false empty_world))
    = generate_log empty_world
      ++ [("models/gemini-1.5-flash", "Hi"); (fallback_model, "Hi")]
    /\ fallback_model <> "models/gemini-1.5-flash"
    /\ fallback_model
       = (if decide ("models/gemini-1.5-flash" = "models/gemini-1.5-flash")
          then "models/gemini-2.0-flash" else "models/gemini-1.5-flash").
Proof.
  apply (fallback_model_is_another offline "Hi" "simple" false empty_world
           "models/gemini-1.5-flash"); reflexivity.
Defined.

(** The greeting hello reaches [_llm_chat] once, through fact extraction:
    the call is not free of completion requests. *)
Lemma greeting_invokes_llm_chat :
  fst (process_user_message offline "hello" "web_user" empty_world)
  = inr greeting_reply
  /\ chat_log (snd (process_user_message offline "hello" "web_user" empty_world))
     = [(extract_user_info_prompt "hello", "medium", true)]
  /\ ~ (chat_log (snd (process_user_message offline "hello" "web_user" empty_world))
        = chat_log empty_world).
Proof. vm_compute. repeat split. discriminate. Qed.

Lemma greeting_shortcut_hello :
  mem (lower (strip "  Hello ")) greetings = true
  /\ fst (process_user_message offline "  Hello " "web_user" empty_world)
     = inr greeting_reply
  /\ chat_log (snd (process_user_message offline "  Hello " "web_user" empty_world))
     = chat_log empty_world ++ [(extract_user_info_prompt "  Hello ", "medium", true)].
Proof.
  split; [reflexivity|].
  apply (greeting_shortcut offline "  Hello " "web_user" empty_world). reflexivity.
Defined.

(** The single token asdf123 reaches [_llm_chat] once as well. *)
Lemma single_token_invokes_llm_chat :
  fst (process_user_message offline "asdf123" "web_user" empty_world)
  = inr not_understood_reply
  /\ chat_log (snd (process_user_message offline "asdf123" "web_user" empty_world))
     = [(extract_user_info_prompt "asdf123", "medium", true)]
  /\ ~ (chat_log (snd (process_user_message offline "asdf123" "web_user" empty_world))
        = chat_log empty_world).
Proof. vm_compute. repeat split. discriminate. Qed.

Lemma single_token_shortcut_asdf123 :
  fullmatch_alnum (strip "asdf123") = true
  /\ mem (lower (strip "asdf123")) greetings = false
  /\ fst (process_user_message offline "asdf123" "web_user" empty_world)
     = inr not_understood_reply
  /\ chat_log (snd (process_user_message offline "asdf123" "web_user" empty_world))
     = chat_log empty_world ++ [(extract_user_info_prompt "asdf123", "medium", true)].
Proof.
  split; [reflexivity|]. split; [reflexivity|].
  apply (single_token_shortcut offline "asdf123" "web_user" empty_world); reflexivity.
Defined.

Lemma all_unknown_keeps_record_web_user :
  user_preferences one_user !! "web_user" = Some known_user
  /\ all_values_unknown
       (fst (_llm_chat (answering four_unknown)
               (extract_user_info_prompt "hi there") "medium" true one_user)) = true
  /\ user_preferences
       (snd (extract_user_info (answering four_unknown) "hi there" "web_user" one_user))
     = user_preferences one_user
  /\ fst (extract_user_info (answering four_unknown) "hi there" "web_user" one_user)
     = known_user.
Proof.
  split; [reflexivity|]. split; [reflexivity|].
  apply (all_unknown_keeps_record (answering four_unknown) "hi there" "web_user"
           one_user known_user); reflexivity.
Defined.

Lemma budget_only_updates_budget_web_user :
  fst (extract_user_info (answering budget_reply) "under $100" "web_user" one_user)
  !! "budget" = Some (PStr "$50-100")
  /\ fst (extract_user_info (answering budget_reply) "under $100" "web_user" one_user)
     !! "location" = Some (PStr "Pune").
Proof.
  pose proof (budget_only_updates_budget (answering budget_reply) "under $100"
                "web_user" one_user known_user "$50-100"
                eq_refl eq_refl eq_refl) as (_ & _ & Hb & Hl & _).
  split; [exact Hb | exact Hl].
Defined.

(** Relocation: Paris does not hold the token Location: (the match is
    case-sensitive), so the line is not read under any label and changes
    nothing. *)
Lemma relocation_is_not_a_location_line :
  contains "Location:" "Relocation: Paris" = false
  /\ first_label "Relocation: Paris" = None
  /\ process_line offline "web_user" "Relocation: Paris" one_user = one_user.
Proof. repeat split. Qed.

(** A line read under Location writes two keys of the record. *)
Lemma location_line_writes_two_keys :
  stored one_user "web_user" "location" = Some (PStr "Pune")
  /\ stored one_user "web_user" "enhanced_location" = None
  /\ stored (process_line offline "web_user" "My Location: Paris" one_user)
       "web_user" "location" = Some (PStr "Paris")
  /\ stored (process_line offline "web_user" "My Location: Paris" one_user)
       "web_user" "enhanced_location"
     = Some (PDict (<["original_query" := PStr "Paris"]>
                   (<["polygon_available" := PBool false]> ∅))).
Proof. vm_compute. repeat split. Qed.

Lemma line_updates_first_label_two_tokens :
  first_label "Budget: 5 (Body Type: tall)" = Some BodyTypeLabel
  /\ stored (process_line offline "web_user" "Budget: 5 (Body Type: tall)" one_user)
       "web_user" "budget" = Some (PStr "$200")
  /\ stored (process_line offline "web_user" "Budget: 5 (Body Type: tall)" one_user)
       "web_user" "body_type" = Some (PStr "tall)").
Proof.
  split; [reflexivity|]. split.
  - apply (proj2 (line_updates_first_label offline "web_user"
                    "Budget: 5 (Body Type: tall)" one_user) BudgetLabel "web_user").
    discriminate.
  - reflexivity.
Defined.

(** The function of [gemini_utils.py] keeps no cache at all: two calls
    with the same string make two adapter calls, found or not. *)
Lemma uncached_lookup_repeats :
  adapter_log
    (snd (get_enhanced_location_info online "Paris"
            (snd (get_enhanced_location_info online "Paris" empty_world))))
  = ["Paris"; "Paris"].
Proof. reflexivity. Qed.

End GeminiUtilsFacts.

(** ** Location classification *)
Module LocationFacts.
Import Location.

Lemma mem_elem_of (k : string) (l : list string) : mem k l = true <-> k ∈ l.
Proof.
  unfold mem. induction l as [|x l IH]; cbn [existsb].
  - split; [discriminate | intros H; inversion H].
  - rewrite orb_true_iff, elem_of_cons, IH, String.eqb_eq. reflexivity.
Qed.

Lemma scalar_not_list k : k ∈ text_scalar_fields -> k ∈ list_fields -> False.
Proof.
  intros H1 H2. apply mem_elem_of in H1. apply mem_elem_of in H2.
  unfold mem, text_scalar_fields, list_fields in *. cbn [existsb] in *.
  repeat (apply orb_prop in H1 as [H1|H1]); try discriminate;
    apply String.eqb_eq in H1; subst k; vm_compute in H2; discriminate.
Qed.

Lemma required_is_scalar k : k ∈ required_fields -> k ∈ text_scalar_fields.
Proof.
  unfold required_fields, text_scalar_fields. rewrite !elem_of_cons. tauto.
Qed.

Lemma climate_not_field k :
  k ∈ text_scalar_fields \/ k ∈ list_fields -> k <> "climate_recommendations".
Proof.
  intros [H|H] ->; apply mem_elem_of in H; vm_compute in H; discriminate.
Qed.

(** *** Validation of a decoded object *)

Lemma fill_required_lookup c f k :
  fill_required c f !! k
  = if decide (k = f) then Some (default (PStr "unknown") (c !! k)) else c !! k.
Proof.
  unfold fill_required. case_decide as Hk.
  - subst k. destruct (c !! f) eqn:Hf; [now rewrite Hf | now rewrite lookup_insert_eq].
  - destruct (c !! f); [reflexivity | now rewrite lookup_insert_ne].
Qed.

Lemma fold_fill_required_lookup fields : forall c k,
  fold_left fill_required fields c !! k
  = if decide (k ∈ fields) then Some (default (PStr "unknown") (c !! k)) else c !! k.
Proof.
  induction fields as [|f fields IH]; intros c k; cbn [fold_left].
  - case_decide as H; [inversion H | reflexivity].
  - rewrite IH, fill_required_lookup.
    destruct (decide (k ∈ fields)) as [Hin|Hin];
      destruct (decide (k = f)) as [->|Hne];
      destruct (decide (_ ∈ f :: fields)) as [Hc|Hc]; try reflexivity;
      try (exfalso; apply Hc; rewrite elem_of_cons; auto; fail).
    all: try (apply elem_of_cons in Hc as [?|?]; contradiction).
    all: try now destruct (c !! f).
Qed.

Lemma fill_list_lookup c f k :
  fill_list c f !! k = if decide (k = f) then Some (as_list (c !! k)) else c !! k.
Proof.
  unfold fill_list. case_decide as Hk.
  - subst k. destruct (c !! f) as [[]|] eqn:Hf; cbn [as_list];
      rewrite ?lookup_insert_eq, ?Hf; reflexivity.
  - destruct (c !! f) as [[]|]; rewrite ?lookup_insert_ne by congruence; reflexivity.
Qed.

Lemma as_list_idem o : as_list (Some (as_list o)) = as_list o.
Proof. now destruct o as [[]|]. Qed.

Lemma fold_fill_list_lookup fields : forall c k,
  fold_left fill_list fields c !! k
  = if decide (k ∈ fields) then Some (as_list (c !! k)) else c !! k.
Proof.
  induction fields as [|f fields IH]; intros c k; cbn [fold_left].
  - case_decide as H; [inversion H | reflexivity].
  - rewrite IH, fill_list_lookup.
    destruct (decide (k ∈ fields)) as [Hin|Hin];
      destruct (decide (k = f)) as [->|Hne];
      destruct (decide (_ ∈ f :: fields)) as [Hc|Hc]; try reflexivity;
      try (exfalso; apply Hc; rewrite elem_of_cons; auto; fail).
    all: try (apply elem_of_cons in Hc as [?|?]; contradiction).
    all: try now rewrite as_list_idem.
Qed.

(** The validated record, key by key. *)
Lemma validate_lookup o k : validate o !! k = validated_entry o k.
Proof.
  unfold validate, validated_entry.
  set (c1 := fold_left fill_required required_fields o).
  set (c2 := fold_left fill_list list_fields c1).
  assert (H2 : forall j, c2 !! j
            = if decide (j ∈ list_fields) then Some (as_list (c1 !! j)) else c1 !! j)
    by (intros j; apply fold_fill_list_lookup).
  assert (H1 : forall j, c1 !! j
            = if decide (j ∈ required_fields)
              then Some (default (PStr "unknown") (o !! j)) else o !! j)
    by (intros j; apply fold_fill_required_lookup).
  assert (Hcr : c2 !! "climate_recommendations" = o !! "climate_recommendations").
  { rewrite H2, H1. reflexivity. }
  assert (Hk : (if c2 !! "climate_recommendations" is Some _ then c2
                else <["climate_recommendations" := empty_climate_recommendations]> c2) !! k
               = if decide (k = "climate_recommendations")
                 then Some (default empty_climate_recommendations (o !! k))
                 else c2 !! k).
  { case_decide as Hd.
    - subst k. rewrite Hcr.
      destruct (o !! "climate_recommendations") eqn:Ho; [now rewrite Hcr|].
      apply lookup_insert_eq.
    - destruct (c2 !! "climate_recommendations"); [reflexivity|].
      now apply lookup_insert_ne. }
  rewrite Hk, H2, H1.
  destruct (decide (k ∈ required_fields)) as [Hr|Hr].
  - assert (Hnl : k ∉ list_fields)
      by (intros Hl; exact (scalar_not_list k (required_is_scalar k Hr) Hl)).
    assert (Hnc : k <> "climate_recommendations")
      by (apply climate_not_field; left; now apply required_is_scalar).
    now rewrite !decide_False by assumption.
  - destruct (decide (k ∈ list_fields)) as [Hl|Hl].
    + assert (Hnc : k <> "climate_recommendations")
        by (apply climate_not_field; now right).
      now rewrite decide_False by assumption.
    + reflexivity.
Qed.

(** *** The text fallback *)

Lemma text_defaults_shape : text_shape text_defaults.
Proof.
  repeat split.
  - intros k H. unfold text_scalar_fields in H.
    repeat (apply elem_of_cons in H as [->|H]); try (eexists; reflexivity).
    inversion H.
  - intros k H. unfold list_fields in H.
    repeat (apply elem_of_cons in H as [->|H]); try (eexists; reflexivity).
    inversion H.
Qed.

Lemma insert_scalar_shape d key s :
  key ∈ text_scalar_fields -> text_shape d -> text_shape (<[key := PStr s]> d).
Proof.
  intros Hkey (Hs & Hl & Hc). repeat split.
  - intros k Hk. destruct (decide (key = k)) as [->|Hne].
    + rewrite lookup_insert_eq. eauto.
    + rewrite lookup_insert_ne by assumption. auto.
  - intros k Hk. rewrite lookup_insert_ne; [auto|].
    intros ->. exact (scalar_not_list k Hkey Hk).
  - rewrite lookup_insert_ne; [assumption|]. apply climate_not_field. now left.
Qed.

Lemma insert_list_shape d key l :
  key ∈ list_fields -> text_shape d -> text_shape (<[key := PList l]> d).
Proof.
  intros Hkey (Hs & Hl & Hc). repeat split.
  - intros k Hk. rewrite lookup_insert_ne; [auto|].
    intros ->. exact (scalar_not_list k Hk Hkey).
  - intros k Hk. destruct (decide (key = k)) as [->|Hne].
    + rewrite lookup_insert_eq. eauto.
    + rewrite lookup_insert_ne by assumption. auto.
  - rewrite lookup_insert_ne; [assumption|]. apply climate_not_field. now right.
Qed.

Lemma parse_text_line_shape d line :
  text_shape d -> text_shape (parse_text_line d line).
Proof.
  intros Hd. unfold parse_text_line.
  destruct (_ && _); [|assumption].
  destruct (mem _ text_scalar_fields) eqn:Hs.
  { apply insert_scalar_shape; [now apply mem_elem_of | assumption]. }
  destruct (mem _ list_fields) eqn:Hl; [|assumption].
  destruct (_ && _); [|assumption].
  apply insert_list_shape; [now apply mem_elem_of | assumption].
Qed.

Lemma text_response_shape response :
  text_shape (_parse_text_classification_response response).
Proof.
  unfold _parse_text_classification_response.
  generalize (split newline response) text_defaults text_defaults_shape.
  intros lines. induction lines as [|line lines IH]; intros d Hd; cbn [fold_left];
    [assumption|].
  apply IH. now apply parse_text_line_shape.
Qed.

(** A response without any colon is read as the defaults. *)
Lemma text_response_defaults response :
  (forall line, line ∈ split newline response -> contains ":" (strip line) = false) ->
  _parse_text_classification_response response = text_defaults.
Proof.
  unfold _parse_text_classification_response.
  generalize (split newline response) text_defaults.
  intros lines. induction lines as [|line lines IH]; intros d H; cbn [fold_left];
    [reflexivity|].
  assert (Hline : parse_text_line d line = d).
  { unfold parse_text_line. rewrite (H line) by (apply elem_of_cons; now left).
    reflexivity. }
  rewrite Hline. apply IH. intros l Hl. apply H. apply elem_of_cons. now right.
Qed.

Lemma search_braces_opens response json_str :
  search_braces response = Some json_str -> exists s, json_str = String "{" s.
Proof.
  unfold search_braces.
  destruct (partition "{" response) as [[before after]|]; [|discriminate].
  destruct (upto_last "}" after) as [inner|]; [|discriminate].
  intros [= <-]. now eexists.
Qed.

Section WithBackend.
Context (E : Backend).

(** An exception of [json.loads] other than [JSONDecodeError] is not
    caught at line 140: it leaves the parser. *)
Lemma uncaught_decoder_error response e :
  decoder_error E response = Some e ->
  _parse_llm_classification_response E response = inl e /\ e <> JSONDecodeError.
Proof.
  unfold decoder_error, _parse_llm_classification_response.
  destruct (search_braces response) as [json_str|]; [|discriminate].
  destruct (json_loads E json_str) as [[]|v]; try discriminate.
  all: intros [= <-]; split; [reflexivity | discriminate].
Qed.

(** And its caller, whose handler catches every exception, then turns to
    the rule-based fallback without caching anything. *)
Lemma uncaught_decoder_error_falls_back llm location_info self w response e :
  classification_cache self !! location_key E location_info = None ->
  llm (List.length (chat_log w)) (location_prompt E location_info) "complex"
  = inr response ->
  decoder_error E response = Some e ->
  _get_llm_location_classification E llm location_info self w
  = (_get_basic_fallback_classification location_info, self,
     log_chat (location_prompt E location_info, "complex", true) w).
Proof.
  intros Hmiss Hanswer Herror.
  unfold _get_llm_location_classification. rewrite Hmiss. cbn zeta. rewrite Hanswer.
  now rewrite (proj1 (uncaught_decoder_error response e Herror)).
Qed.

(** C3, as the code has it.  With a decoder that, like [json.loads],
    yields an object for a text that opens with a brace, and for a
    response on which the decoder returns or raises [JSONDecodeError],
    the parser returns a record, and the record always holds region,
    climate_zone and fashion_market, each of the five list keys with a
    list, and climate_recommendations.  When the response holds a
    decodable object, an absent region, climate_zone or fashion_market is
    set to unknown, an absent or non-list list key to the empty list and
    an absent climate_recommendations to the four empty lists, and a
    climate_recommendations supplied as an object is kept; every other
    key, seasonal_info and price_range_info among them, stays as
    supplied, absent when absent.  Otherwise the text fallback is taken:
    all five scalar keys hold strings, climate_recommendations holds the
    four empty lists, and a response without any colon gives the defaults
    of [text_defaults] (temperate, international, Varies by season,
    Varies). *)
Theorem classification_record_shape response :
  decodes_objects E ->
  decoder_error E response = None ->
  exists d,
    _parse_llm_classification_response E response = inr d
    /\ (forall k, k ∈ required_fields -> is_Some (d !! k))
    /\ (forall k, k ∈ list_fields -> exists l, d !! k = Some (PList l))
    /\ is_Some (d !! "climate_recommendations")
    /\ match decoded_object E response with
       | Some o =>
           (forall k, k <> "climate_recommendations" -> d !! k = validated_entry o k)
           /\ (o !! "climate_recommendations" = None ->
               d !! "climate_recommendations" = Some empty_climate_recommendations)
           /\ (forall recommendations,
                 o !! "climate_recommendations" = Some (PDict recommendations) ->
                 d !! "climate_recommendations" = Some (PDict recommendations))
       | None =>
           d = _parse_text_classification_response response
           /\ text_shape d
           /\ ((forall line, line ∈ split newline response ->
                            contains ":" (strip line) = false) ->
               d = text_defaults)
       end.
Proof.
  intros Hobj Hcaught.
  assert (Htext : forall d, d = _parse_text_classification_response response ->
    (forall k, k ∈ required_fields -> is_Some (d !! k))
    /\ (forall k, k ∈ list_fields -> exists l, d !! k = Some (PList l))
    /\ is_Some (d !! "climate_recommendations")
    /\ d = _parse_text_classification_response response
    /\ text_shape d
    /\ ((forall line, line ∈ split newline response ->
                     contains ":" (strip line) = false) -> d = text_defaults)).
  { intros d ->. pose proof (text_response_shape response) as Hsh.
    pose proof Hsh as (Hs & Hl & Hc).
    repeat split; try assumption.
    - intros k Hk. destruct (Hs k (required_is_scalar k Hk)) as [s ->]. eauto.
    - rewrite Hc. eauto.
    - apply text_response_defaults. }
  revert Hcaught.
  unfold _parse_llm_classification_response, decoded_object, decoder_error.
  destruct (search_braces response) as [json_str|] eqn:Hsearch.
  2:{ intros _. eexists. split; [reflexivity|]. specialize (Htext _ eq_refl). tauto. }
  destruct (json_loads E json_str) as [e|v] eqn:Hloads.
  { destruct e; try discriminate. intros _.
    eexists. split; [reflexivity|]. specialize (Htext _ eq_refl). tauto. }
  intros _.
  destruct (search_braces_opens _ _ Hsearch) as [s ->].
  destruct (Hobj _ _ Hloads) as [o ->].
  exists (validate o). split; [reflexivity|].
  assert (Hrecs : validate o !! "climate_recommendations"
                  = Some (default empty_climate_recommendations
                            (o !! "climate_recommendations"))).
  { rewrite validate_lookup. reflexivity. }
  repeat split.
  - intros k Hk. rewrite validate_lookup. unfold validated_entry.
    rewrite decide_True by assumption. eauto.
  - intros k Hk. rewrite validate_lookup. unfold validated_entry.
    rewrite decide_False
      by (intros Hr; exact (scalar_not_list k (required_is_scalar k Hr) Hk)).
    rewrite decide_True by assumption.
    destruct (o !! k) as [[]|]; cbn [as_list]; eauto.
  - rewrite Hrecs. eauto.
  - intros k _. apply validate_lookup.
  - intros Habsent. now rewrite Hrecs, Habsent.
  - intros recommendations Hsupplied. now rewrite Hrecs, Hsupplied.
Qed.

(** *** The rule-based fallback *)

Lemma generic_fallback_entries region climate_zone :
  generic_fallback region climate_zone !! "region" = Some (PStr region)
  /\ generic_fallback region climate_zone !! "climate_zone" = Some (PStr climate_zone)
  /\ generic_fallback region climate_zone !! "local_brands"
     = Some (strs ["Zara"; "H&M"; "Uniqlo"])
  /\ generic_fallback region climate_zone !! "available_stores"
     = Some (strs ["Local malls"; "Online retailers"])
  /\ generic_fallback region climate_zone !! "popular_styles"
     = Some (strs ["Casual"; "Smart casual"; "Formal"]).
Proof. repeat split. Qed.

(** The table of lines 210-216, for a record whose country is a string
    (or absent, read as the empty string): when the record is not in the
    classification cache and the classification call raises, the
    classification returned is the rule-based one, the caches stay as
    they were, and the rows of the table apply in order on the lower-cased
    country: a South Asian term gives south_asia and tropical; otherwise a
    North American term gives north_america; otherwise a European term
    gives europe; otherwise the region is unknown; in the last three
    cases the climate zone is temperate.  Brands, stores and styles are
    the fixed generic lists in every case.  No record that
    [get_enhanced_location_info] builds is of this kind: its country is
    None. *)
Lemma fallback_follows_table llm location_info self w country e :
  get_or location_info "country" (PStr EmptyString) = PStr country ->
  classification_cache self !! location_key E location_info = None ->
  llm (List.length (chat_log w)) (location_prompt E location_info) "complex" = inl e ->
  exists region climate_zone,
    _get_llm_location_classification E llm location_info self w
    = (inr (generic_fallback region climate_zone), self,
       log_chat (location_prompt E location_info, "complex", true) w)
    /\ _get_basic_fallback_classification location_info
       = inr (generic_fallback region climate_zone)
    /\ (any_in south_asia_terms (lower country) = true ->
        region = "south_asia" /\ climate_zone = "tropical")
    /\ (any_in south_asia_terms (lower country) = false ->
        any_in north_america_terms (lower country) = true ->
        region = "north_america" /\ climate_zone = "temperate")
    /\ (any_in south_asia_terms (lower country) = false ->
        any_in north_america_terms (lower country) = false ->
        any_in europe_terms (lower country) = true ->
        region = "europe" /\ climate_zone = "temperate")
    /\ (any_in south_asia_terms (lower country) = false ->
        any_in north_america_terms (lower country) = false ->
        any_in europe_terms (lower country) = false ->
        region = "unknown" /\ climate_zone = "temperate")
    /\ generic_fallback region climate_zone !! "local_brands"
       = Some (strs ["Zara"; "H&M"; "Uniqlo"])
    /\ generic_fallback region climate_zone !! "available_stores"
       = Some (strs ["Local malls"; "Online retailers"])
    /\ generic_fallback region climate_zone !! "popular_styles"
       = Some (strs ["Casual"; "Smart casual"; "Formal"]).
Proof.
  intros Hcountry Hmiss Hraise.
  unfold _get_llm_location_classification. rewrite Hmiss. cbn zeta. rewrite Hraise.
  unfold _get_basic_fallback_classification. rewrite Hcountry.
  destruct (any_in south_asia_terms (lower country)) eqn:Hsa;
    [|destruct (any_in north_america_terms (lower country)) eqn:Hna;
      [|destruct (any_in europe_terms (lower country)) eqn:Heu]].
  all: do 2 eexists; split; [reflexivity|]; split; [reflexivity|].
  all: repeat split; intros; congruence.
Qed.

(** C8, at the records the code builds.  The record that
    [get_enhanced_location_info] hands to the classification of a place
    that Nominatim found has None as its country, whatever the place
    (line 26 reads the key address_details, geo.py line 44 writes
    address).  When such a record is not in the classification cache and
    the classification call raises, line 187 calls lower on None: the
    rule-based fallback raises AttributeError inside the handler of line
    104, no row of the table is applied, and the classification raises
    with the caches as they were. *)
Theorem fallback_raises_on_built_record llm location hit self w e :
  classification_cache self !! location_key E (Pipeline.built_record location hit) = None ->
  llm (List.length (chat_log w))
      (location_prompt E (Pipeline.built_record location hit)) "complex" = inl e ->
  get_or (Pipeline.built_record location hit) "country" (PStr EmptyString) = PNone
  /\ _get_basic_fallback_classification (Pipeline.built_record location hit)
     = inl AttributeError
  /\ _get_llm_location_classification E llm (Pipeline.built_record location hit) self w
     = (inl AttributeError, self,
        log_chat (location_prompt E (Pipeline.built_record location hit),
                  "complex", true) w).
Proof.
  intros Hmiss Hraise. split; [reflexivity|]. split; [reflexivity|].
  unfold _get_llm_location_classification. rewrite Hmiss. cbn zeta. now rewrite Hraise.
Qed.

(** *** The location cache *)

Lemma geo_adapter_log q w :
  adapter_log (snd (Geo.get_user_location_polygon E q w)) = adapter_log w ++ [q].
Proof.
  unfold Geo.get_user_location_polygon.
  destruct (_ || _); [reflexivity|]. now destruct (nominatim E _ q).
Qed.

(** Classification talks to the model only, and keeps the location cache. *)
Lemma classification_frame llm location_info self w :
  let r := _get_llm_location_classification E llm location_info self w in
  adapter_log (snd r) = adapter_log w
  /\ location_cache (snd (fst r)) = location_cache self.
Proof.
  unfold _get_llm_location_classification.
  destruct (classification_cache self !! _); [auto|]. cbn zeta.
  destruct (llm _ _ _) as [e|response]; [auto|].
  destruct (_parse_llm_classification_response E response); auto.
Qed.

(** A call that misses the location cache makes one adapter call; a call
    that hits it changes nothing. *)
Lemma enhanced_info_adapter_log llm location self w :
  match location_cache self !! location with
  | Some cached =>
      get_enhanced_location_info E llm location self w = (inr (Some cached), self, w)
  | None =>
      adapter_log (snd (get_enhanced_location_info E llm location self w))
      = adapter_log w ++ [location]
  end.
Proof.
  unfold get_enhanced_location_info.
  destruct (location_cache self !! location); [reflexivity|].
  pose proof (geo_adapter_log location w) as Hgeo.
  destruct (Geo.get_user_location_polygon E location w) as [[d|] w0];
    cbn [snd] in Hgeo; [|exact Hgeo].
  destruct (truthy (PDict d)); [|exact Hgeo].
  repeat match goal with
         | |- context [match get_attr ?v ?k with _ => _ end] => destruct (get_attr v k)
         end; try exact Hgeo.
  match goal with
  | |- context [_get_llm_location_classification E llm ?info self w0] =>
      pose proof (classification_frame llm info self w0) as [Ha _];
      destruct (_get_llm_location_classification E llm info self w0) as [[[e|c] s1] w1]
  end; cbn [fst snd] in *; congruence.
Qed.

(** C4, as the code has it.  When the first of two calls with the same
    raw string returns a record, the record is in the location cache: the
    second call returns it again without any adapter call and without
    changing any state, so the two calls make at most one adapter call.
    When the first call finds nothing, nothing is cached, and the second
    call makes the adapter call again. *)
Theorem second_call_uses_cache llm location self w :
  (forall info self1 w1,
      get_enhanced_location_info E llm location self w = (inr (Some info), self1, w1) ->
      get_enhanced_location_info E llm location self1 w1 = (inr (Some info), self1, w1)
      /\ (List.length (adapter_log w1) <= S (List.length (adapter_log w)))%nat)
  /\ (forall self1 w1,
      get_enhanced_location_info E llm location self w = (inr None, self1, w1) ->
      self1 = self
      /\ adapter_log w1 = adapter_log w ++ [location]
      /\ adapter_log (snd (get_enhanced_location_info E llm location self1 w1))
         = adapter_log w ++ [location; location]).
Proof.
  split.
  - intros info self1 w1 Hfirst.
    pose proof (enhanced_info_adapter_log llm location self w) as Hlog.
    destruct (location_cache self !! location) as [cached|] eqn:Hcache.
    + rewrite Hlog in Hfirst. injection Hfirst as <- <- <-.
      pose proof (enhanced_info_adapter_log llm location self w) as Hagain.
      rewrite Hcache in Hagain. split; [exact Hagain | lia].
    + rewrite Hfirst in Hlog. cbn [snd] in Hlog.
      assert (Hnow : location_cache self1 !! location = Some info).
      { revert Hfirst. unfold get_enhanced_location_info. rewrite Hcache.
        destruct (Geo.get_user_location_polygon E location w) as [[d|] w0];
          [|discriminate].
        destruct (truthy (PDict d)); [|discriminate].
        repeat match goal with
               | |- context [match get_attr ?v ?k with _ => _ end] =>
                   destruct (get_attr v k)
               end; try discriminate.
        destruct (_get_llm_location_classification E llm _ self w0) as [[[e|c] s1] w2];
          [discriminate|].
        intros [= <- <- <-]. apply lookup_insert_eq. }
      pose proof (enhanced_info_adapter_log llm location self1 w1) as Hagain.
      rewrite Hnow in Hagain. split; [exact Hagain|].
      rewrite Hlog, length_app. cbn. lia.
  - intros self1 w1 Hfirst.
    pose proof (enhanced_info_adapter_log llm location self w) as Hlog.
    destruct (location_cache self !! location) as [cached|] eqn:Hcache.
    { rewrite Hlog in Hfirst. discriminate. }
    rewrite Hfirst in Hlog. cbn [snd] in Hlog.
    assert (Hself : self1 = self).
    { revert Hfirst. unfold get_enhanced_location_info. rewrite Hcache.
      destruct (Geo.get_user_location_polygon E location w) as [[d|] w0];
        [|now intros [= <- <-]].
      destruct (truthy (PDict d)); [|now intros [= <- <-]].
      repeat match goal with
             | |- context [match get_attr ?v ?k with _ => _ end] =>
                 destruct (get_attr v k)
             end; try discriminate.
      destruct (_get_llm_location_classification E llm _ self w0) as [[[e|c] s1] w2];
        discriminate. }
    subst self1. split; [reflexivity|]. split; [exact Hlog|].
    pose proof (enhanced_info_adapter_log llm location self w1) as Hagain.
    rewrite Hcache in Hagain. rewrite Hagain, Hlog. now rewrite <- app_assoc.
Qed.

End WithBackend.

(** *** Instances *)

Import Examples.

Lemma members_object fuel : forall acc s v rest,
  Json.members fuel acc s = Some (v, rest) -> exists d, v = PDict d.
Proof.
  induction fuel as [|fuel IH]; intros acc s v rest; [discriminate|].
  cbn [Json.members].
  destruct (strip_prefix dquote (Json.skip_ws s)) as [r1|]; [|discriminate].
  destruct (Json.string_body r1) as [[key r2]|]; [|discriminate].
  destruct (strip_prefix ":" (Json.skip_ws r2)) as [r3|]; [|discriminate].
  destruct (Json.value fuel r3) as [[v1 r4]|]; [|discriminate].
  destruct (Json.skip_ws r4) as [|c r5]; [discriminate|].
  destruct (Nat.eqb (nat_of_ascii c) 44); [apply IH|].
  destruct (Nat.eqb (nat_of_ascii c) 125); [|discriminate].
  intros [= <- _]. eauto.
Qed.

(** The decoder of the examples yields objects for texts that open with a
    brace. *)
Lemma example_decoder_objects : decodes_objects offline.
Proof.
  intros s v. cbn [json_loads offline]. unfold loads, Json.loads.
  destruct (Json.value _ _) as [[v1 rest]|] eqn:Hv; [|discriminate].
  destruct (Json.skip_ws rest); [|discriminate]. intros [= ->].
  cbn [Json.value] in Hv.
  change (Json.skip_ws (String "{" s)) with (String "{" s) in Hv.
  change (Nat.eqb (nat_of_ascii "{") 123) with true in Hv. cbn match in Hv.
  destruct (strip_prefix "}" (Json.skip_ws s)).
  - injection Hv as <- _. eauto.
  - exact (members_object _ _ _ _ _ Hv).
Qed.

(** Scenario 4: the object with three keys is given the list keys and
    climate_recommendations, but neither seasonal_info nor
    price_range_info; and a response that is no JSON gets temperate, not
    unknown, as its climate zone. *)
Lemma three_field_object_lacks_keys :
  exists d,
    _parse_llm_classification_response offline three_field_json = inr d
    /\ d !! "local_brands" = Some (PList [])
    /\ d !! "seasonal_info" = None
    /\ d !! "price_range_info" = None
    /\ _parse_llm_classification_response offline "no idea"
       = inr text_defaults
    /\ text_defaults !! "climate_zone" = Some (PStr "temperate").
Proof. eexists. repeat split. Qed.

Lemma classification_record_shape_three_fields :
  exists d,
    _parse_llm_classification_response offline three_field_json = inr d
    /\ d !! "region" = Some (PStr "south_asia")
    /\ d !! "popular_styles" = Some (PList [])
    /\ d !! "climate_recommendations" = Some empty_climate_recommendations.
Proof.
  destruct (classification_record_shape offline three_field_json
              example_decoder_objects eq_refl) as (d & Hd & _ & _ & _ & Hentry).
  exists d. split; [exact Hd|].
  change (decoded_object offline three_field_json)
    with (Some (<["region" := PStr "south_asia"]>
                (<["climate_zone" := PStr "tropical"]>
                (<["fashion_market" := PStr "indian"]> (∅ : gmap string pyval)))))
    in Hentry.
  destruct Hentry as (Hentry & Habsent & _).
  rewrite !Hentry by discriminate. rewrite (Habsent eq_refl). repeat split.
Defined.

(** Two calls for a place that Nominatim does not know make two adapter
    calls and two requests. *)
Lemma unknown_place_is_looked_up_twice :
  let '(r1, self1, w1) :=
    get_enhanced_location_info offline chat_raises "Atlantis" new_assistant empty_world in
  let '(r2, self2, w2) :=
    get_enhanced_location_info offline chat_raises "Atlantis" self1 w1 in
  r1 = inr None
  /\ adapter_log w2 = ["Atlantis"; "Atlantis"]
  /\ request_log w2 = ["Atlantis"; "Atlantis"].
Proof. vm_compute. repeat split. Qed.

Lemma second_call_uses_cache_paris :
  let first :=
    get_enhanced_location_info online (chat_answers three_field_json) "Paris"
      new_assistant empty_world in
  get_enhanced_location_info online (chat_answers three_field_json) "Paris"
    (snd (fst first)) (snd first) = first
  /\ adapter_log (snd first) = ["Paris"].
Proof.
  cbv zeta.
  assert (Hrecord :
    match fst (fst (get_enhanced_location_info online (chat_answers three_field_json)
                      "Paris" new_assistant empty_world)) with
    | inr (Some _) => true
    | _ => false
    end = true) by (vm_compute; reflexivity).
  assert (Hlog :
    adapter_log (snd (get_enhanced_location_info online (chat_answers three_field_json)
                        "Paris" new_assistant empty_world)) = ["Paris"])
    by (vm_compute; reflexivity).
  destruct (get_enhanced_location_info online (chat_answers three_field_json) "Paris"
              new_assistant empty_world) as [[[e|[info|]] self1] w1] eqn:Hfirst;
    try discriminate Hrecord.
  split; [|exact Hlog].
  exact (proj1 (proj1 (second_call_uses_cache online (chat_answers three_field_json)
                         "Paris" new_assistant empty_world) info self1 w1 Hfirst)).
Defined.

(** Called on its own with a country that holds both india and usa, the
    fallback applies the first row, not the North American one. *)
Lemma indiana_usa_is_south_asia :
  any_in north_america_terms (lower "Indiana, USA") = true
  /\ _get_basic_fallback_classification (<["country" := PStr "Indiana, USA"]> ∅)
     = inr (generic_fallback "south_asia" "tropical").
Proof. repeat split. Qed.

Lemma fallback_follows_table_india :
  exists region climate_zone,
    _get_llm_location_classification offline chat_raises
      (<["country" := PStr "India"]> ∅) new_assistant empty_world
    = (inr (generic_fallback region climate_zone), new_assistant,
       log_chat (location_prompt offline (<["country" := PStr "India"]> ∅),
                 "complex", true) empty_world)
    /\ region = "south_asia" /\ climate_zone = "tropical".
Proof.
  destruct (fallback_follows_table offline chat_raises
              (<["country" := PStr "India"]> ∅) new_assistant empty_world
              "India" CompletionError)
    as (region & climate_zone & Hcall & _ & Hsa & _); [reflexivity..|].
  exists region, climate_zone. split; [exact Hcall|]. now apply Hsa.
Defined.

(** With the record that [get_enhanced_location_info] builds, the country
    is None (the adapter's record has no address_details key), and the
    fallback raises instead of classifying. *)
Lemma fallback_raises_without_country :
  _get_basic_fallback_classification (<["country" := PNone]> ∅) = inl AttributeError
  /\ fst (fst (get_enhanced_location_info online chat_raises "Paris"
                 new_assistant empty_world)) = inl AttributeError.
Proof. split; reflexivity. Qed.

(** Paris, France: Nominatim finds the place, the classification call
    raises, and the record handed to the fallback has None where the
    country France would be; the fallback raises, and so does the lookup
    as a whole. *)
Lemma fallback_raises_on_built_record_paris :
  let location_info := Pipeline.built_record "Paris" paris_hit in
  location_info !! "country" = Some PNone
  /\ _get_basic_fallback_classification location_info = inl AttributeError
  /\ _get_llm_location_classification online chat_raises location_info new_assistant
       (log_request "Paris" (log_adapter "Paris" empty_world))
     = (inl AttributeError, new_assistant,
        log_chat (location_prompt online location_info, "complex", true)
          (log_request "Paris" (log_adapter "Paris" empty_world)))
  /\ get_enhanced_location_info online chat_raises "Paris" new_assistant empty_world
     = (inl AttributeError, new_assistant,
        log_chat (location_prompt online location_info, "complex", true)
          (log_request "Paris" (log_adapter "Paris" empty_world))).
Proof.
  cbv zeta.
  destruct (fallback_raises_on_built_record online chat_raises "Paris" paris_hit
              new_assistant (log_request "Paris" (log_adapter "Paris" empty_world))
              CompletionError)
    as (_ & Hfallback & Hcall); [reflexivity..|].
  split; [reflexivity|]. split; [exact Hfallback|]. split; [exact Hcall|].
  reflexivity.
Defined.

End LocationFacts.

(** ** More on the completion adapter and the orchestrator *)
Module CompletionFacts.
Import GeminiUtils GeminiUtilsFacts.

Section WithBackend.
Context (E : Backend).

Lemma select_model_in_roster tc rnd w :
  fst (select_model E tc rnd w) ∈ Config.GEMINI_MODELS.
Proof.
  unfold select_model. destruct rnd; cbn [fst].
  - unfold Config.available_models, Config.GEMINI_MODELS. cbn [List.length].
    pose proof (Nat.mod_upper_bound (random_choice E (draws w)) 4 ltac:(lia)) as Hlt.
    destruct (random_choice E (draws w) mod 4) as [|[|[|[|n]]]]; [..|lia];
      cbn [List.nth]; rewrite !elem_of_cons; auto 10.
  - unfold get_model_for_task, Config.GEMINI_MODELS.
    destruct (String.eqb tc "simple"); [|destruct (String.eqb tc "medium")];
      rewrite !elem_of_cons; auto 10.
Qed.

Lemma fallback_model_in_roster m : fallback_model_for m ∈ Config.GEMINI_MODELS.
Proof.
  unfold fallback_model_for, Config.GEMINI_MODELS.
  destruct (String.eqb m _); rewrite !elem_of_cons; auto 10.
Qed.

(** X1.  Every call of [_llm_chat] makes one or two completion attempts,
    never none and never more; each is made with the prompt of the call
    and with a model of the roster [GEMINI_MODELS]. *)
Theorem attempts_stay_in_roster prompt tc rnd w :
  exists added,
    generate_log (snd (_llm_chat E prompt tc rnd w)) = generate_log w ++ added
    /\ (1 <= List.length added <= 2)%nat
    /\ forall model p, (model, p) ∈ added ->
         model ∈ Config.GEMINI_MODELS /\ p = prompt.
Proof.
  rewrite llm_chat_unfold.
  destruct (select_model_frame E tc rnd w) as (_ & _ & Hg & _).
  pose proof (select_model_in_roster tc rnd w) as Hm.
  pose proof (fallback_model_in_roster (fst (select_model E tc rnd w))) as Hf.
  destruct (generate_content E _ _ prompt) as [text|].
  - exists [(fst (select_model E tc rnd w), prompt)]. cbn. rewrite Hg.
    split; [reflexivity|]. split; [lia|].
    intros model p Hin. apply list_elem_of_singleton in Hin. now injection Hin as -> ->.
  - exists [(fst (select_model E tc rnd w), prompt);
            (fallback_model_for (fst (select_model E tc rnd w)), prompt)].
    split.
    + destruct (generate_content E (S _) _ prompt); cbn; rewrite Hg;
        now rewrite <- app_assoc.
    + split; [cbn; lia|]. intros model p Hin.
      apply elem_of_cons in Hin as [Hin|Hin]; [now injection Hin as -> ->|].
      apply list_elem_of_singleton in Hin. now injection Hin as -> ->.
Qed.

(** X2.  The reply of [_llm_chat] is the stripped text of the first
    attempt that succeeds: that of the selected model when it answers, in
    which case no second attempt is made, and that of the fallback model
    when only the first attempt raises. *)
Theorem reply_is_first_success prompt tc rnd w m :
  fst (select_model E tc rnd w) = m ->
  (forall text,
      generate_content E (List.length (generate_log w)) m prompt = Some text ->
      fst (_llm_chat E prompt tc rnd w) = strip text
      /\ generate_log (snd (_llm_chat E prompt tc rnd w))
         = generate_log w ++ [(m, prompt)])
  /\ (forall text,
      generate_content E (List.length (generate_log w)) m prompt = None ->
      generate_content E (S (List.length (generate_log w))) (fallback_model_for m) prompt
      = Some text ->
      fst (_llm_chat E prompt tc rnd w) = strip text).
Proof.
  intros Hm. rewrite llm_chat_unfold, Hm.
  destruct (select_model_frame E tc rnd w) as (_ & _ & Hg & _).
  split.
  - intros text ->. cbn. now rewrite Hg.
  - intros text -> Hsecond. cbn zeta. now rewrite Hsecond.
Qed.

(** X3.  With [use_random_model] set, which is the default every caller
    but [classify_intent] relies on, the task complexity has no effect:
    the reply and the attempts made are the same for any two tiers. *)
Theorem random_mode_ignores_tier prompt tier tier' w :
  fst (_llm_chat E prompt tier true w) = fst (_llm_chat E prompt tier' true w)
  /\ generate_log (snd (_llm_chat E prompt tier true w))
     = generate_log (snd (_llm_chat E prompt tier' true w)).
Proof.
  rewrite !llm_chat_unfold. unfold select_model. cbn [fst snd].
  destruct (generate_content E _ _ prompt); [now cbn|].
  destruct (generate_content E (S _) _ prompt); now cbn.
Qed.

(** When no attempt ever succeeds, every call ends in the apology. *)
Lemma llm_chat_offline prompt tc rnd w :
  (forall k model p, generate_content E k model p = None) ->
  fst (_llm_chat E prompt tc rnd w) = apology_reply.
Proof. intros Hdown. rewrite llm_chat_unfold. now rewrite !Hdown. Qed.

(** X4.  While every completion attempt fails, [process_user_message]
    still answers, and never with the apology of [_llm_chat]: a greeting
    gets the greeting reply and every other message the not-understood
    reply, because the apology returned by [classify_intent] is not an
    intent category. *)
Theorem replies_while_service_is_down message user_id w :
  (forall k model p, generate_content E k model p = None) ->
  fst (process_user_message E message user_id w)
  = inr (if mem (lower (strip message)) greetings
         then greeting_reply else not_understood_reply).
Proof.
  intros Hdown. unfold process_user_message.
  destruct (extract_user_info E message user_id w) as [info w1].
  destruct (mem (lower (strip message)) greetings); [reflexivity|].
  destruct (_ && _); [reflexivity|].
  unfold classify_intent.
  pose proof (llm_chat_offline (classify_intent_prompt message) "simple" false w1 Hdown)
    as Hintent.
  destruct (_llm_chat E _ "simple" false w1) as [intent w2]. cbn [fst] in Hintent.
  subst intent. reflexivity.
Qed.

Lemma generate_fashion_response_chat_log message intent user_id w :
  exists added,
    chat_log (snd (generate_fashion_response E message intent user_id w))
    = chat_log w ++ added
    /\ (List.length added <= 1)%nat.
Proof.
  unfold generate_fashion_response. cbv zeta.
  match goal with
  | |- context [match ?c with inl e => (inl e, w) | inr _ => _ end] => destruct c as [e|context]
  end.
  - exists []. cbn. rewrite app_nil_r. split; [reflexivity | lia].
  - match goal with
    | |- context [_llm_chat E ?p "complex" true w] =>
        pose proof (llm_chat_frame E p "complex" true w) as (_ & Hc & _);
        destruct (_llm_chat E p "complex" true w) as [text w1]
    end.
    cbn [snd] in *. eexists. split; [exact Hc|]. cbn. lia.
Qed.

(** X5.  One call of [process_user_message] invokes [_llm_chat] at least
    once and at most three times (extraction, intent, reply), in that
    order after whatever was logged before. *)
Theorem at_most_three_chats message user_id w :
  exists added,
    chat_log (snd (process_user_message E message user_id w)) = chat_log w ++ added
    /\ (1 <= List.length added <= 3)%nat.
Proof.
  unfold process_user_message.
  pose proof (extract_user_info_chat_log E message user_id w) as Hc.
  destruct (extract_user_info E message user_id w) as [info w1]. cbn [snd] in Hc.
  destruct (mem (lower (strip message)) greetings).
  { eexists. split; [exact Hc|]. cbn. lia. }
  destruct (_ && _).
  { eexists. split; [exact Hc|]. cbn. lia. }
  unfold classify_intent.
  pose proof (llm_chat_frame E (classify_intent_prompt message) "simple" false w1)
    as (_ & Hi & _).
  destruct (_llm_chat E _ "simple" false w1) as [intent w2]. cbn [snd] in Hi.
  destruct (negb (mem intent intent_categories)).
  { eexists. cbn [snd]. rewrite Hi, Hc, <- app_assoc. split; [reflexivity|]. cbn. lia. }
  destruct (generate_fashion_response_chat_log message intent user_id w2)
    as (added & Hg & Hlen).
  eexists. rewrite Hg, Hi, Hc, <- !app_assoc. split; [reflexivity|].
  rewrite !length_app. cbn. lia.
Qed.

End WithBackend.
End CompletionFacts.

(** ** More on fact extraction *)
Module ExtractionFacts.
Import GeminiUtils GeminiUtilsFacts.

(** Writing keys of one user's record, one after the other: the other
    users are not touched, the user stays, and every key of the record
    holds what it held or one of the values written. *)
Lemma writes_lookup (user_id : string) (updates : list (string * pyval)) :
  forall (base : gmap string (gmap string pyval)) (record : gmap string pyval),
  base !! user_id = Some record ->
  let after :=
    fold_right (fun update m => alter (insert (fst update) (snd update)) user_id m)
      base updates in
  (forall u, u <> user_id -> after !! u = base !! u)
  /\ exists record',
      after !! user_id = Some record'
      /\ forall k, record' !! k = record !! k
                   \/ exists x, (k, x) ∈ updates /\ record' !! k = Some x.
Proof.
  induction updates as [|[key x] updates IH]; intros base record Hbase; cbn.
  - split; [reflexivity|]. exists record. auto.
  - destruct (IH base record Hbase) as (Hother & record' & Hrec & Hkeys). split.
    + intros u Hu. rewrite lookup_alter_ne by congruence. now apply Hother.
    + exists (<[key := x]> record'). split.
      * rewrite lookup_alter_eq. rewrite Hrec. reflexivity.
      * intros k. destruct (decide (key = k)) as [->|Hne].
        -- right. exists x. rewrite lookup_insert_eq. split; [left|reflexivity].
        -- rewrite lookup_insert_ne by assumption.
           destruct (Hkeys k) as [Hk|(y & Hin & Hk)]; [now left|].
           right. exists y. split; [now right | assumption].
Qed.

Section WithBackend.
Context (E : Backend).

(** What one line writes: nothing, one label's key with a value other
    than unknown, or location followed by enhanced_location. *)
Lemma process_line_writes user_id line w :
  exists updates,
    user_preferences (process_line E user_id line w)
    = fold_right (fun update m => alter (insert (fst update) (snd update)) user_id m)
        (user_preferences w) updates
    /\ Forall (fun update =>
                 fst update = "enhanced_location"
                 \/ exists l v, fst update = label_key l /\ snd update = PStr v
                                /\ v <> "unknown") updates.
Proof.
  rewrite process_line_labeled.
  destruct (first_label line) as [l|]; [|exists []; split; [reflexivity | constructor]].
  unfold apply_label.
  destruct (String.eqb (value_after (label_token l) line) "unknown") eqn:Hv;
    [exists []; split; [reflexivity | constructor]|].
  apply String.eqb_neq in Hv.
  set (v := value_after (label_token l) line) in *.
  assert (Hone : exists updates,
    user_preferences (store_field user_id (label_key l) (PStr v) w)
    = fold_right (fun update m => alter (insert (fst update) (snd update)) user_id m)
        (user_preferences w) updates
    /\ Forall (fun update =>
                 fst update = "enhanced_location"
                 \/ exists l v, fst update = label_key l /\ snd update = PStr v
                                /\ v <> "unknown") updates).
  { exists [(label_key l, PStr v)]. split; [reflexivity|].
    constructor; [|constructor]. right. now exists l, v. }
  destruct l; try exact Hone. clear Hone. cbn [label_token label_key] in *.
  pose proof (enhanced_location_frame E v (store_field user_id "location" (PStr v) w))
    as [Hp _].
  destruct (get_enhanced_location_info E v _) as [enhanced w1]. cbn [snd] in Hp.
  destruct (truthy enhanced).
  - exists [("enhanced_location", enhanced); ("location", PStr v)]. split.
    + cbn. now rewrite Hp.
    + constructor; [now left|]. constructor; [|constructor].
      right. now exists LocationLabel, v.
  - exists [("location", PStr v)]. split; [now rewrite Hp|].
    constructor; [|constructor]. right. now exists LocationLabel, v.
Qed.

Lemma fold_lines_writes user_id lines : forall w,
  exists updates,
    user_preferences (fold_left (fun w line => process_line E user_id line w) lines w)
    = fold_right (fun update m => alter (insert (fst update) (snd update)) user_id m)
        (user_preferences w) updates
    /\ Forall (fun update =>
                 fst update = "enhanced_location"
                 \/ exists l v, fst update = label_key l /\ snd update = PStr v
                                /\ v <> "unknown") updates.
Proof.
  induction lines as [|line lines IH]; intros w; cbn [fold_left].
  - exists []. split; [reflexivity | constructor].
  - destruct (IH (process_line E user_id line w)) as (later & Hlater & Hok).
    destruct (process_line_writes user_id line w) as (first & Hfirst & Hok').
    exists (later ++ first). split.
    + rewrite Hlater, Hfirst. now rewrite foldr_app.
    + now apply Forall_app.
Qed.

(** The store after [extract_user_info]: the user's record is created
    empty when there was none, and then keys are written. *)
Lemma extract_user_info_writes message user_id w :
  exists updates,
    user_preferences (snd (extract_user_info E message user_id w))
    = fold_right (fun update m => alter (insert (fst update) (snd update)) user_id m)
        (<[user_id := default ∅ (user_preferences w !! user_id)]> (user_preferences w))
        updates
    /\ fst (extract_user_info E message user_id w)
       = default ∅ (user_preferences (snd (extract_user_info E message user_id w))
                      !! user_id)
    /\ Forall (fun update =>
                 fst update = "enhanced_location"
                 \/ exists l v, fst update = label_key l /\ snd update = PStr v
                                /\ v <> "unknown") updates.
Proof.
  unfold extract_user_info.
  destruct (llm_chat_frame E (extract_user_info_prompt message) "medium" true w)
    as (Hp & _).
  destruct (_llm_chat E _ _ _ w) as [extracted w1]. cbn [fst snd] in *.
  set (w2 := match user_preferences w1 !! user_id with
             | Some _ => w1
             | None => set_user_preferences (insert user_id ∅) w1
             end).
  assert (Hw2 : user_preferences w2
                = <[user_id := default ∅ (user_preferences w !! user_id)]>
                    (user_preferences w)).
  { unfold w2. rewrite Hp.
    destruct (user_preferences w !! user_id) as [record|] eqn:Hu; cbn.
    - rewrite Hp. symmetry. now apply insert_id.
    - now rewrite Hp. }
  destruct (fold_lines_writes user_id (split newline (strip extracted)) w2)
    as (updates & Hfold & Hok).
  exists updates. rewrite Hfold, Hw2. auto.
Qed.

(** The same, read key by key. *)
Lemma extract_user_info_lookup message user_id w :
  exists updates,
    (forall u, u <> user_id ->
       user_preferences (snd (extract_user_info E message user_id w)) !! u
       = user_preferences w !! u)
    /\ user_preferences (snd (extract_user_info E message user_id w)) !! user_id
       = Some (fst (extract_user_info E message user_id w))
    /\ (forall k,
          fst (extract_user_info E message user_id w) !! k = stored w user_id k
          \/ exists x, (k, x) ∈ updates
               /\ fst (extract_user_info E message user_id w) !! k = Some x)
    /\ Forall (fun update =>
                 fst update = "enhanced_location"
                 \/ exists l v, fst update = label_key l /\ snd update = PStr v
                                /\ v <> "unknown") updates.
Proof.
  destruct (extract_user_info_writes message user_id w) as (updates & Hprefs & Hfst & Hok).
  pose proof (writes_lookup user_id updates
                (<[user_id := default ∅ (user_preferences w !! user_id)]>
                   (user_preferences w))
                (default ∅ (user_preferences w !! user_id))
                (lookup_insert_eq _ _ _)) as (Hother & record' & Hrec & Hkeys).
  rewrite <- Hprefs in Hother, Hrec.
  rewrite Hrec in Hfst. cbn in Hfst. subst record'.
  exists updates. split; [|split; [exact Hrec|split; [|exact Hok]]].
  - intros u Hu. rewrite Hother by assumption. now apply lookup_insert_ne.
  - intros k. destruct (Hkeys k) as [Hk|Hk]; [left|now right].
    rewrite Hk. unfold stored. now destruct (user_preferences w !! user_id).
Qed.

(** X6.  After [extract_user_info] the user has a record, which is the
    one returned, also when the response supplied nothing; and the
    records of all other users are exactly as before. *)
Theorem extraction_touches_one_user message user_id w :
  user_preferences (snd (extract_user_info E message user_id w)) !! user_id
  = Some (fst (extract_user_info E message user_id w))
  /\ forall u, u <> user_id ->
       user_preferences (snd (extract_user_info E message user_id w)) !! u
       = user_preferences w !! u.
Proof.
  destruct (extract_user_info_lookup message user_id w) as (updates & Hother & Hrec & _).
  auto.
Qed.

(** X7.  [extract_user_info] never removes a key: whatever key the
    user's record held before, the returned record holds too. *)
Theorem extraction_keeps_keys message user_id w k :
  is_Some (stored w user_id k) ->
  is_Some (fst (extract_user_info E message user_id w) !! k).
Proof.
  intros Hk.
  destruct (extract_user_info_lookup message user_id w) as (updates & _ & _ & Hkeys & _).
  destruct (Hkeys k) as [->|(x & _ & ->)]; eauto.
Qed.

(** X8.  The literal unknown is never stored: under each of the four
    label keys the returned record holds what was stored before, or a
    string other than unknown. *)
Theorem extraction_never_stores_unknown message user_id w l :
  fst (extract_user_info E message user_id w) !! label_key l
  = stored w user_id (label_key l)
  \/ exists v, v <> "unknown"
       /\ fst (extract_user_info E message user_id w) !! label_key l = Some (PStr v).
Proof.
  destruct (extract_user_info_lookup message user_id w) as (updates & _ & _ & Hkeys & Hok).
  destruct (Hkeys (label_key l)) as [Hk|(x & Hin & Hk)]; [now left|right].
  rewrite Forall_forall in Hok. apply Hok in Hin. cbn [fst snd] in Hin.
  destruct Hin as [Hin|(l' & v & _ & -> & Hv)]; [destruct l; discriminate|].
  now exists v.
Qed.

End WithBackend.
End ExtractionFacts.

(** ** Location lookups of gemini_utils.py and geo.py *)
Module LookupFacts.
Import GeminiUtils GeminiUtilsFacts.

Lemma dict_insert_truthy k v (m : gmap string pyval) : truthy (PDict (<[k := v]> m)) = true.
Proof.
  cbn. destruct (Nat.eqb (size (<[k := v]> m)) 0) eqn:Hsize; [|reflexivity].
  apply Nat.eqb_eq, map_size_empty_inv in Hsize.
  now apply insert_non_empty in Hsize.
Qed.

Section WithBackend.
Context (E : Backend).

(** X9.  [LocationAPI.get_user_location_polygon] sends no request for an
    empty query or one that is unknown in any letter case, and returns
    None; for every other query it sends exactly one request, and a
    place that is found comes back as a record with the eight keys of
    lines 39-46, the source being nominatim. *)
Theorem polygon_lookup_requests location_query w :
  adapter_log (snd (Geo.get_user_location_polygon E location_query w))
  = adapter_log w ++ [location_query]
  /\ if String.eqb location_query EmptyString
        || String.eqb (lower location_query) "unknown"
     then fst (Geo.get_user_location_polygon E location_query w) = None
          /\ request_log (snd (Geo.get_user_location_polygon E location_query w))
             = request_log w
     else request_log (snd (Geo.get_user_location_polygon E location_query w))
          = request_log w ++ [location_query]
          /\ match nominatim E (List.length (request_log w)) location_query with
             | Some hit =>
                 exists d,
                   fst (Geo.get_user_location_polygon E location_query w) = Some d
                   /\ dom d = list_to_set
                                ["display_name"; "source"; "latitude"; "longitude";
                                 "bbox"; "address"; "place_id"; "importance"]
                   /\ d !! "source" = Some (PStr "nominatim")
                   /\ d !! "display_name" = Some (hit_display_name hit)
                   /\ d !! "address" = Some (hit_address hit)
             | None => fst (Geo.get_user_location_polygon E location_query w) = None
             end.
Proof.
  split; [apply LocationFacts.geo_adapter_log|].
  unfold Geo.get_user_location_polygon.
  destruct (_ || _); [split; reflexivity|].
  cbn [request_log log_adapter].
  destruct (nominatim E _ location_query) as [hit|]; cbn [fst snd]; split;
    try reflexivity.
  eexists. split; [reflexivity|]. split; [|repeat split].
  rewrite !dom_insert_L, dom_empty_L. cbn. set_solver.
Qed.

(** X10.  [get_enhanced_location_info] of gemini_utils.py returns None,
    without calling the adapter, exactly for an empty string or one that
    is unknown in any letter case.  For every other string it calls the
    adapter once and returns a record that holds the string under
    original_query and, under polygon_available, whether Nominatim found
    the place. *)
Theorem enrichment_result location_string w :
  if String.eqb location_string EmptyString
     || String.eqb (lower location_string) "unknown"
  then get_enhanced_location_info E location_string w = (PNone, w)
  else
    exists d,
      fst (get_enhanced_location_info E location_string w) = PDict d
      /\ d !! "original_query" = Some (PStr location_string)
      /\ d !! "polygon_available"
         = Some (PBool (match nominatim E (List.length (request_log w)) location_string with
                        | Some _ => true
                        | None => false
                        end))
      /\ adapter_log (snd (get_enhanced_location_info E location_string w))
         = adapter_log w ++ [location_string].
Proof.
  unfold get_enhanced_location_info.
  destruct (_ || _) eqn:Hguard; [reflexivity|].
  pose proof (LocationFacts.geo_adapter_log E location_string w) as Hlog.
  unfold Geo.get_user_location_polygon in *. rewrite Hguard in *.
  cbn [request_log log_adapter] in *.
  destruct (nominatim E _ location_string) as [hit|]; cbn [fst snd] in *.
  - rewrite dict_insert_truthy. eexists. repeat split; try exact Hlog.
  - eexists. repeat split; try exact Hlog.
Qed.

(** X11.  A Location line whose value is empty, or is unknown written
    with a capital, passes the test against the lower-case literal: the
    value is stored as the location, but it is not looked up, the adapter
    is not called and enhanced_location keeps what it held. *)
Theorem unknown_location_is_stored_unenriched user_id line w record v :
  user_preferences w !! user_id = Some record ->
  contains "Location:" line = true ->
  value_after "Location:" line = v ->
  v <> "unknown" ->
  v = EmptyString \/ lower v = "unknown" ->
  process_line E user_id line w = store_field user_id "location" (PStr v) w
  /\ stored (process_line E user_id line w) user_id "location" = Some (PStr v)
  /\ stored (process_line E user_id line w) user_id "enhanced_location"
     = record !! "enhanced_location"
  /\ adapter_log (process_line E user_id line w) = adapter_log w.
Proof.
  intros Hrec Hline Hv Hne Hguard.
  assert (Hstep : process_line E user_id line w
                  = store_field user_id "location" (PStr v) w).
  { unfold process_line. rewrite Hline, Hv.
    apply String.eqb_neq in Hne. rewrite Hne. cbn [negb].
    unfold get_enhanced_location_info.
    assert (Hg : String.eqb v EmptyString || String.eqb (lower v) "unknown" = true).
    { destruct Hguard as [->| ->]; [reflexivity|].
      apply orb_true_iff. right. reflexivity. }
    now rewrite Hg. }
  rewrite Hstep. split; [reflexivity|].
  unfold stored. rewrite (store_field_prefs _ _ _ _ _ Hrec), lookup_insert_eq.
  split; [apply lookup_insert_eq|]. split; [now apply lookup_insert_ne | reflexivity].
Qed.

(** X12.  [LocationAPI.get_location_info] returns the fixed not-found
    record (city and country None, found False) whenever the lookup gives
    nothing.  When the lookup gives a record whose address is a
    dictionary, it returns a record in which found is True, the city is
    the first truthy one of the address's city, town and village, state
    and country are the address's, and display_name is the lookup's.
    When the address is no dictionary, it raises AttributeError. *)
Theorem location_info_found location w :
  match fst (Geo.get_user_location_polygon E location w) with
  | None => fst (GeoInfo.get_location_info E location w) = inr GeoInfo.not_found
  | Some polygon =>
      match get_or polygon "address" (PDict ∅) with
      | PDict address =>
          exists d,
            fst (GeoInfo.get_location_info E location w) = inr d
            /\ d !! "found" = Some (PBool true)
            /\ d !! "city"
               = Some (py_or (py_or (get address "city") (get address "town"))
                         (get address "village"))
            /\ d !! "state" = Some (get address "state")
            /\ d !! "country" = Some (get address "country")
            /\ d !! "display_name" = Some (get polygon "display_name")
      | _ => fst (GeoInfo.get_location_info E location w) = inl AttributeError
      end
  end.
Proof.
  unfold GeoInfo.get_location_info, Geo.get_user_location_polygon.
  destruct (_ || _); [reflexivity|].
  destruct (nominatim E _ location) as [hit|]; [|reflexivity].
  cbn [fst snd]. rewrite dict_insert_truthy.
  change (get_or _ "address" (PDict ∅)) with (hit_address hit).
  destruct (hit_address hit) as [| | | | |l|address];
    cbn [Location.get_attr]; try reflexivity.
  eexists. repeat split.
Qed.

End WithBackend.
End LookupFacts.

(** ** The chat transport entry point *)
Module TransportFacts.
Import Transport.

Lemma partition_none_prefix sep s :
  partition sep s = None -> strip_prefix sep s = None.
Proof.
  destruct s; cbn [partition]; now destruct (strip_prefix sep _).
Qed.

Lemma strip_prefix_extend sep : forall s r t,
  strip_prefix sep s = Some r -> strip_prefix sep (s +:+ t) = Some (r +:+ t).
Proof.
  induction sep as [|a sep IH]; intros s r t; simpl.
  - now intros [= ->].
  - destruct s as [|b s]; [discriminate|]. simpl.
    destruct (Ascii.eqb a b); [apply IH | discriminate].
Qed.

Lemma strip_prefix_shorter sep : forall s r,
  sep <> EmptyString -> strip_prefix sep s = Some r ->
  (String.length r < String.length s)%nat.
Proof.
  induction sep as [|a sep IH]; intros s r Hsep; [congruence|].
  destruct s as [|b s]; simpl; [discriminate|].
  destruct (Ascii.eqb a b); [|discriminate].
  destruct sep as [|a' sep'].
  - simpl. intros [= ->]. lia.
  - intros H. apply IH in H; [lia | discriminate].
Qed.

Lemma partition_before sep : forall s before after,
  partition sep s = Some (before, after) -> exists t, s = before +:+ t.
Proof.
  induction s as [|c s IH]; intros before after; cbn [partition].
  - destruct (strip_prefix sep EmptyString); [|discriminate].
    intros [= <- <-]. now eexists.
  - destruct (strip_prefix sep (String c s)).
    + intros [= <- <-]. now eexists.
    + destruct (partition sep s) as [[b a]|]; [|discriminate].
      intros [= <- <-]. destruct (IH b a eq_refl) as [t ->]. now exists t.
Qed.

(** The text before the first occurrence holds no occurrence, and the
    text after it is shorter than the whole. *)
Lemma partition_first sep (Hsep : sep <> EmptyString) : forall s before after,
  partition sep s = Some (before, after) ->
  partition sep before = None /\ (String.length after < String.length s)%nat.
Proof.
  induction s as [|c s IH]; intros before after; cbn [partition].
  - destruct sep; [congruence | discriminate].
  - destruct (strip_prefix sep (String c s)) as [rest|] eqn:Hp.
    + intros [= <- <-]. split.
      * destruct sep; [congruence | reflexivity].
      * now apply (strip_prefix_shorter sep).
    + destruct (partition sep s) as [[b a]|] eqn:Hs; [|discriminate].
      intros [= <- <-]. destruct (IH b a eq_refl) as [Hb Hlen].
      split; [|simpl; lia].
      cbn [partition]. rewrite Hb.
      destruct (strip_prefix sep (String c b)) as [r|] eqn:Hpb; [|reflexivity].
      destruct (partition_before sep s b a Hs) as [t ->].
      change (String c (b +:+ t)) with (String c b +:+ t) in Hp.
      rewrite (strip_prefix_extend _ _ _ t Hpb) in Hp. discriminate.
Qed.

Lemma split_fuel_pieces sep (Hsep : sep <> EmptyString) fuel : forall s,
  (String.length s <= fuel)%nat ->
  Forall (fun piece => partition sep piece = None) (split_fuel fuel sep s).
Proof.
  induction fuel as [|fuel IH]; intros s Hlen; cbn [split_fuel].
  - destruct s; [|cbn in Hlen; lia]. constructor; [|constructor].
    destruct sep; [congruence | reflexivity].
  - destruct (partition sep s) as [[before after]|] eqn:Hp.
    + destruct (partition_first sep Hsep s before after Hp) as [Hb Hshort].
      constructor; [exact Hb|]. apply IH. lia.
    + constructor; [exact Hp | constructor].
Qed.

Lemma strip_prefix_across sep c : forall p q,
  all_chars (fun a => negb (Ascii.eqb a c)) sep = true ->
  strip_prefix sep p = None ->
  strip_prefix sep (p +:+ String c q) = None.
Proof.
  induction sep as [|a sep IH]; intros p q Hc Hp; [discriminate|].
  simpl in Hc. apply andb_prop in Hc as [Ha Hc].
  destruct p as [|x p]; simpl in *.
  - apply negb_true_iff in Ha. now rewrite Ha.
  - destruct (Ascii.eqb a x); [now apply IH | reflexivity].
Qed.

(** Two pieces without an occurrence, joined by a character that the
    pattern does not hold, have no occurrence either. *)
Lemma partition_across sep c q :
  sep <> EmptyString ->
  all_chars (fun a => negb (Ascii.eqb a c)) sep = true ->
  partition sep q = None ->
  forall p, partition sep p = None -> partition sep (p +:+ String c q) = None.
Proof.
  intros Hsep Hc Hq. induction p as [|x p IH]; intros Hp.
  - assert (H0 : strip_prefix sep (String c q) = None).
    { apply (strip_prefix_across sep c EmptyString q Hc).
      destruct sep; [congruence | reflexivity]. }
    change (EmptyString +:+ String c q) with (String c q).
    cbn [partition]. now rewrite H0, Hq.
  - pose proof (partition_none_prefix _ _ Hp) as Hpre.
    cbn [partition] in Hp. rewrite Hpre in Hp.
    destruct (partition sep p) as [[b a]|] eqn:Hpp; [discriminate|].
    change (String x p +:+ String c q) with (String x (p +:+ String c q)).
    cbn [partition].
    change (String x (p +:+ String c q)) with (String x p +:+ String c q).
    rewrite (strip_prefix_across sep c (String x p) q Hc Hpre).
    now rewrite IH.
Qed.

Lemma join_pieces sep c pieces :
  sep <> EmptyString ->
  all_chars (fun a => negb (Ascii.eqb a c)) sep = true ->
  Forall (fun piece => partition sep piece = None) pieces ->
  partition sep (join (String c EmptyString) pieces) = None.
Proof.
  intros Hsep Hc. induction pieces as [|p pieces IH]; intros Hall.
  - destruct sep; [congruence | reflexivity].
  - inversion Hall as [|? ? Hp Hrest]; subst.
    destruct pieces as [|p' pieces']; [exact Hp|].
    change (join (String c EmptyString) (p :: p' :: pieces'))
      with (p +:+ String c (join (String c EmptyString) (p' :: pieces'))).
    apply partition_across; auto.
Qed.

(** After [replace] no occurrence of the pattern is left, when the
    replacement is one character that the pattern does not hold. *)
Lemma replace_leaves_none old c s :
  old <> EmptyString ->
  all_chars (fun a => negb (Ascii.eqb a c)) old = true ->
  contains old (replace old (String c EmptyString) s) = false.
Proof.
  intros Hold Hc. unfold contains, replace, split.
  rewrite (join_pieces old c _ Hold Hc); [reflexivity|].
  now apply split_fuel_pieces.
Qed.

Lemma replace_absent old new s :
  contains old s = false -> replace old new s = s.
Proof.
  unfold contains, replace, split. intros H.
  destruct (partition old s) eqn:Hp; [discriminate|].
  destruct (String.length s); cbn [split_fuel]; [reflexivity|]. now rewrite Hp.
Qed.

Section WithBackend.
Context (E : Backend) (exn_str : exn -> string).

(** X13.  When [process_user_message] returns a reply,
    [handle_telegram_message] returns it with every two-character
    sequence backslash-n turned into a line break: no such sequence is
    left in what is sent, a reply without one is sent as it is, and the
    state is that left by [process_user_message]. *)
Theorem telegram_reply_has_no_escaped_newline message_text user_id w response :
  fst (GeminiUtils.process_user_message E message_text user_id w) = inr response ->
  fst (handle_telegram_message E exn_str message_text user_id w)
  = replace escaped_newline newline response
  /\ contains escaped_newline
       (fst (handle_telegram_message E exn_str message_text user_id w)) = false
  /\ (contains escaped_newline response = false ->
      fst (handle_telegram_message E exn_str message_text user_id w) = response)
  /\ snd (handle_telegram_message E exn_str message_text user_id w)
     = snd (GeminiUtils.process_user_message E message_text user_id w).
Proof.
  unfold handle_telegram_message.
  destruct (GeminiUtils.process_user_message E message_text user_id w) as [[e|r] w1];
    cbn [fst snd]; [discriminate|].
  intros [= ->]. split; [reflexivity|]. split; [|split; [|reflexivity]].
  - apply replace_leaves_none; [discriminate | reflexivity].
  - apply replace_absent.
Qed.

End WithBackend.
End TransportFacts.

(** ** More on location classification *)
Module ClassificationFacts.
Import Location LocationFacts.

(** X14.  Validating a decoded object twice gives what validating it once
    gives: the validated record is a fixed point of lines 117-133. *)
Theorem validate_idempotent o : validate (validate o) = validate o.
Proof.
  apply map_eq. intros k. rewrite !validate_lookup. unfold validated_entry.
  rewrite !validate_lookup. unfold validated_entry.
  destruct (decide (k ∈ required_fields)); [reflexivity|].
  destruct (decide (k ∈ list_fields)); [now rewrite as_list_idem|].
  destruct (decide (k = "climate_recommendations")); reflexivity.
Qed.

(** X15.  Validation never drops a key and never changes a supplied
    value, with one exception: a value that is no list under one of the
    five list keys is replaced by the empty list. *)
Theorem validate_keeps_supplied o k v :
  o !! k = Some v ->
  validate o !! k
  = Some (if decide (k ∈ list_fields) then as_list (Some v) else v).
Proof.
  intros Hk. rewrite validate_lookup. unfold validated_entry. rewrite Hk.
  destruct (decide (k ∈ required_fields)) as [Hr|Hr].
  - rewrite decide_False; [reflexivity|].
    intros Hl. exact (scalar_not_list k (required_is_scalar k Hr) Hl).
  - destruct (decide (k ∈ list_fields)); [reflexivity|].
    destruct (decide (k = "climate_recommendations")); reflexivity.
Qed.

Lemma parse_text_line_dom d line :
  dom d = dom text_defaults -> dom (parse_text_line d line) = dom text_defaults.
Proof.
  intros Hd.
  assert (Hin : forall key x,
    key ∈ text_scalar_fields \/ key ∈ list_fields ->
    dom (<[key := x]> d) = dom text_defaults).
  { intros key x Hkey. rewrite dom_insert_L, Hd.
    apply subseteq_union_1_L, singleton_subseteq_l, elem_of_dom.
    destruct text_defaults_shape as (Hs & Hl & _).
    destruct Hkey as [Hkey|Hkey]; [destruct (Hs key Hkey) as [? ->]
                                  |destruct (Hl key Hkey) as [? ->]]; eauto. }
  unfold parse_text_line.
  destruct (_ && _); [|assumption].
  destruct (mem _ text_scalar_fields) eqn:Hs.
  { apply Hin. left. now apply mem_elem_of. }
  destruct (mem _ list_fields) eqn:Hl; [|assumption].
  destruct (_ && _); [|assumption].
  apply Hin. right. now apply mem_elem_of.
Qed.

(** X16.  Whatever the response, the text fallback returns a record with
    exactly the eleven keys of its defaults: a line can overwrite one of
    the ten known keys, and never adds a key of its own. *)
Theorem text_fallback_keys response :
  dom (_parse_text_classification_response response) = dom text_defaults
  /\ forall k,
       is_Some (_parse_text_classification_response response !! k)
       <-> k ∈ text_scalar_fields ++ list_fields ++ ["climate_recommendations"].
Proof.
  assert (Hdom : dom (_parse_text_classification_response response) = dom text_defaults).
  { unfold _parse_text_classification_response.
    assert (Hlines : forall lines d,
      dom d = dom text_defaults ->
      dom (fold_left parse_text_line lines d) = dom text_defaults).
    { intros lines. induction lines as [|line lines IH]; intros d Hd; cbn [fold_left];
        [assumption|].
      apply IH. now apply parse_text_line_dom. }
    now apply Hlines. }
  split; [exact Hdom|].
  intros k. rewrite <- elem_of_dom, Hdom.
  unfold text_defaults, text_scalar_fields, list_fields.
  rewrite !dom_insert_L, dom_empty_L. cbn [app].
  rewrite !elem_of_union, !elem_of_singleton, elem_of_empty, !elem_of_cons, elem_of_nil.
  tauto.
Qed.

End ClassificationFacts.

(** ** The enrichment pipeline of location.py as a whole *)
Module PipelineFacts.
Import Location LocationFacts Pipeline.

Section WithBackend.
Context (E : Backend).
Context (llm : nat -> string -> string -> exn + string).

(** A first lookup of a place that Nominatim finds: the record of
    [built_record] is classified, and the result is cached only when the
    classification returns. *)
Lemma fresh_lookup location self w hit :
  location_cache self !! location = None ->
  String.eqb location EmptyString || String.eqb (lower location) "unknown" = false ->
  nominatim E (List.length (request_log w)) location = Some hit ->
  get_enhanced_location_info E llm location self w
  = match _get_llm_location_classification E llm (built_record location hit) self
            (log_request location (log_adapter location w)) with
    | (inr classification, self', w') =>
        (inr (Some (classification ∪ built_record location hit)),
         {| location_cache :=
              <[location := classification ∪ built_record location hit]>
                (location_cache self');
            classification_cache := classification_cache self' |},
         w')
    | (inl e, self', w') => (inl e, self', w')
    end.
Proof.
  intros Hmiss Hguard Hhit. unfold get_enhanced_location_info. rewrite Hmiss.
  unfold Geo.get_user_location_polygon. rewrite Hguard.
  cbn [request_log log_adapter]. rewrite Hhit.
  rewrite LookupFacts.dict_insert_truthy. reflexivity.
Qed.

Lemma built_record_key location hit :
  location_key E (built_record location hit) = shared_key E.
Proof. reflexivity. Qed.

(** X17.  Through [get_enhanced_location_info] the rule-based fallback
    cannot be reached: the record it is given has None as its country,
    so when the classification call raises for a place that was found,
    the whole call raises AttributeError and nothing is cached. *)
Theorem classification_failure_raises location self w hit e :
  location_cache self !! location = None ->
  String.eqb location EmptyString || String.eqb (lower location) "unknown" = false ->
  nominatim E (List.length (request_log w)) location = Some hit ->
  classification_cache self !! shared_key E = None ->
  (forall prompt, llm (List.length (chat_log w)) prompt "complex" = inl e) ->
  fst (fst (get_enhanced_location_info E llm location self w)) = inl AttributeError
  /\ snd (fst (get_enhanced_location_info E llm location self w)) = self.
Proof.
  intros Hmiss Hguard Hhit Hkey Hraise.
  rewrite (fresh_lookup location self w hit Hmiss Hguard Hhit).
  unfold _get_llm_location_classification.
  rewrite built_record_key, Hkey. cbn zeta.
  change (chat_log (log_request location (log_adapter location w))) with (chat_log w).
  rewrite Hraise. split; reflexivity.
Qed.

(** X18.  All places share one entry of the classification cache.  Once
    the entry exists, a first lookup of any place that is found returns
    the cached classification laid over the place's own record, and the
    model is not asked (the chat log does not grow); and a first lookup
    that returns a record leaves the entry in the cache. *)
Theorem one_classification_for_all_places location self w :
  location_cache self !! location = None ->
  (forall hit classification,
      String.eqb location EmptyString || String.eqb (lower location) "unknown" = false ->
      nominatim E (List.length (request_log w)) location = Some hit ->
      classification_cache self !! shared_key E = Some classification ->
      fst (fst (get_enhanced_location_info E llm location self w))
      = inr (Some (classification ∪ built_record location hit))
      /\ chat_log (snd (get_enhanced_location_info E llm location self w)) = chat_log w)
  /\ (forall info self1 w1,
      get_enhanced_location_info E llm location self w = (inr (Some info), self1, w1) ->
      is_Some (classification_cache self1 !! shared_key E)).
Proof.
  intros Hmiss. split.
  - intros hit classification Hguard Hhit Hkey.
    rewrite (fresh_lookup location self w hit Hmiss Hguard Hhit).
    unfold _get_llm_location_classification. rewrite built_record_key, Hkey.
    split; reflexivity.
  - intros info self1 w1.
    destruct (String.eqb location EmptyString || String.eqb (lower location) "unknown")
      eqn:Hguard.
    { unfold get_enhanced_location_info. rewrite Hmiss.
      unfold Geo.get_user_location_polygon. rewrite Hguard. discriminate. }
    destruct (nominatim E (List.length (request_log w)) location) as [hit|] eqn:Hhit.
    2:{ unfold get_enhanced_location_info. rewrite Hmiss.
        unfold Geo.get_user_location_polygon. rewrite Hguard.
        cbn [request_log log_adapter]. rewrite Hhit. discriminate. }
    rewrite (fresh_lookup location self w hit Hmiss Hguard Hhit).
    unfold _get_llm_location_classification. rewrite built_record_key.
    destruct (classification_cache self !! shared_key E) as [c|] eqn:Hkey.
    { intros [= _ <- _]. cbn. rewrite Hkey. eauto. }
    cbn zeta.
    destruct (llm _ _ _) as [e|response]; [discriminate|].
    destruct (_parse_llm_classification_response E response) as [e|c];
      [discriminate|].
    intros [= _ <- _]. cbn. rewrite lookup_insert_eq. eauto.
Qed.

End WithBackend.

(** *** Climate recommendations *)

Lemma empty_recommendations_any :
  Climate.any_value
    (<["fabrics" := PList []]> (<["colors" := PList []]>
    (<["styles" := PList []]> (<["essentials" := PList []]> ∅)))) = false.
Proof. reflexivity. Qed.

(** X19.  [get_climate_appropriate_recommendations] returns the record's
    own climate_recommendations when one of its values is truthy.  When
    they are absent, or the four empty lists that validation and the text
    fallback fill in, it returns a row of its table, chosen by the
    climate zone: the tropical row, the arid row, and the temperate row
    for every other zone, a missing one included. *)
Theorem recommendations_by_zone location_info :
  (forall own,
      location_info !! "climate_recommendations" = Some (PDict own) ->
      Climate.any_value own = true ->
      Climate.get_climate_appropriate_recommendations location_info = inr own)
  /\ (location_info !! "climate_recommendations" = None
      \/ location_info !! "climate_recommendations" = Some empty_climate_recommendations ->
      forall zone,
        get_or location_info "climate_zone" (PStr "temperate") = PStr zone ->
        Climate.get_climate_appropriate_recommendations location_info
        = inr (if decide (zone = "tropical") then Climate.tropical
               else if decide (zone = "arid") then Climate.arid
               else Climate.temperate)).
Proof.
  unfold Climate.get_climate_appropriate_recommendations. split.
  - intros own Hown Hany. unfold get_or. rewrite Hown.
    change (default (PDict ∅) (Some (PDict own))) with (PDict own).
    assert (Htruthy : truthy (PDict own) = true).
    { cbn. destruct (Nat.eqb (size own) 0) eqn:Hsize; [|reflexivity].
      apply Nat.eqb_eq, map_size_empty_inv in Hsize. subst own. discriminate. }
    now rewrite Htruthy, Hany.
  - intros Hrecs zone Hzone.
    assert (Hown : (if truthy (get_or location_info "climate_recommendations" (PDict ∅))
                    then match get_or location_info "climate_recommendations" (PDict ∅) with
                         | PDict d => inr (if Climate.any_value d then Some d else None)
                         | _ => inl AttributeError
                         end
                    else inr None) = (inr None : exn + option (gmap string pyval))).
    { unfold get_or. destruct Hrecs as [-> | ->]; reflexivity. }
    rewrite Hown, Hzone. unfold Climate.fallback_recs.
    destruct (decide (zone = "tropical")) as [->|Ht]; [reflexivity|].
    apply String.eqb_neq in Ht. rewrite Ht.
    destruct (decide (zone = "arid")) as [->|Ha]; [reflexivity|].
    apply String.eqb_neq in Ha. now rewrite Ha.
Qed.

(** X20.  For the record that the text fallback returns, whatever the
    response, [get_climate_appropriate_recommendations] does not raise
    and returns a row of its table: the record's own recommendations are
    the four empty lists and its climate zone is a string. *)
Theorem text_fallback_recommendations response :
  exists zone,
    _parse_text_classification_response response !! "climate_zone" = Some (PStr zone)
    /\ Climate.get_climate_appropriate_recommendations
         (_parse_text_classification_response response)
       = inr (Climate.fallback_recs zone).
Proof.
  destruct (text_response_shape response) as (Hs & _ & Hc).
  destruct (Hs "climate_zone") as [zone Hzone].
  { unfold text_scalar_fields. rewrite !elem_of_cons. auto. }
  exists zone. split; [exact Hzone|].
  unfold Climate.get_climate_appropriate_recommendations, get_or.
  rewrite Hc, Hzone. reflexivity.
Qed.

End PipelineFacts.

(** ** Reading back a list line *)
Module TextLineFacts.
Import Location LocationFacts TextFormat.

#[local] Arguments String.append !s1 s2 : simpl nomatch.

Lemma append_assoc (a b c : string) : (a +:+ b) +:+ c = a +:+ (b +:+ c).
Proof. induction a as [|x a IH]; simpl; [reflexivity | now rewrite IH]. Qed.

Lemma append_empty (a : string) : a +:+ EmptyString = a.
Proof. induction a as [|x a IH]; simpl; [reflexivity | now rewrite IH]. Qed.

Lemma rstrip_end drop c : forall s,
  drop c = false ->
  rstrip_by drop (s +:+ String c EmptyString) = s +:+ String c EmptyString.
Proof.
  intros s Hc. induction s as [|x s IH]; simpl.
  - now rewrite Hc.
  - rewrite IH. now destruct s.
Qed.

Lemma strip_by_kept drop : forall s,
  all_chars (fun c => negb (drop c)) s = true ->
  lstrip_by drop s = s /\ rstrip_by drop s = s.
Proof.
  induction s as [|x s IH]; simpl; [auto|].
  intros H. apply andb_prop in H as [Hx Hs]. apply negb_true_iff in Hx.
  rewrite Hx. split; [reflexivity|].
  destruct (IH Hs) as [_ ->]. now destruct s.
Qed.

Lemma contains_last c : forall s,
  contains (String c EmptyString) (s +:+ String c EmptyString) = true.
Proof.
  unfold contains. induction s as [|x s IH]; simpl.
  - now rewrite Ascii.eqb_refl.
  - destruct (Ascii.eqb c x); [reflexivity|].
    now destruct (partition (String c EmptyString) (s +:+ String c EmptyString))
      as [[? ?]|].
Qed.

(** Inside a quoted item: the characters up to the closing quote are the
    match. *)
Lemma findall_inside rest : forall item read,
  all_chars (fun c => negb (Ascii.eqb c (ascii_of_nat 34))) item = true ->
  read +:+ item <> EmptyString ->
  findall_quoted (Some read) (item +:+ dquote +:+ rest)
  = (read +:+ item) :: findall_quoted None rest.
Proof.
  induction item as [|c item IH]; intros read Hplain Hne.
  - rewrite append_empty in *. simpl. destruct read; [congruence | reflexivity].
  - simpl in Hplain. apply andb_prop in Hplain as [Hc Hitem].
    apply negb_true_iff in Hc. simpl. rewrite Hc.
    rewrite IH; [|assumption|].
    + now rewrite append_assoc.
    + rewrite append_assoc. simpl. now destruct read.
Qed.

Lemma findall_item item rest :
  plain_item item = true ->
  findall_quoted None (quoted item +:+ rest) = item :: findall_quoted None rest.
Proof.
  unfold plain_item. intros H.
  apply andb_prop in H as [H _]. apply andb_prop in H as [Hne Hplain].
  apply negb_true_iff, String.eqb_neq in Hne.
  unfold quoted. rewrite !append_assoc.
  change (dquote +:+ (item +:+ (dquote +:+ rest)))
    with (String (ascii_of_nat 34) (item +:+ dquote +:+ rest)).
  cbn [findall_quoted]. rewrite Ascii.eqb_refl.
  now rewrite findall_inside.
Qed.

Lemma findall_items : forall items,
  forallb plain_item items = true ->
  findall_quoted None (join ", " (map quoted items) +:+ "]") = items.
Proof.
  induction items as [|item items IH]; [reflexivity|].
  cbn [forallb]. intros H. apply andb_prop in H as [Hitem Hrest].
  destruct items as [|item' items'].
  - cbn [map join]. now rewrite findall_item.
  - change (join ", " (map quoted (item :: item' :: items')))
      with (quoted item +:+ ", " +:+ join ", " (map quoted (item' :: items'))).
    rewrite !append_assoc, findall_item by assumption.
    change (findall_quoted None (", " +:+ (join ", " (map quoted (item' :: items')) +:+ "]")))
      with (findall_quoted None (join ", " (map quoted (item' :: items')) +:+ "]")).
    now rewrite IH.
Qed.

Lemma plain_item_kept item :
  plain_item item = true ->
  negb (String.eqb (strip item) EmptyString) = true
  /\ strip (strip_char (ascii_of_nat 34) item) = item.
Proof.
  unfold plain_item. intros H.
  apply andb_prop in H as [H Hstrip]. apply andb_prop in H as [Hne Hplain].
  apply String.eqb_eq in Hstrip. rewrite Hstrip. split; [exact Hne|].
  unfold strip_char.
  assert (Hkept : all_chars (fun c => negb (Ascii.eqb (ascii_of_nat 34) c)) item = true).
  { clear -Hplain. induction item as [|c item IH]; [reflexivity|].
    cbn [all_chars] in *. apply andb_prop in Hplain as [Hc Hitem].
    rewrite Ascii.eqb_sym, Hc. now apply IH. }
  destruct (strip_by_kept (Ascii.eqb (ascii_of_nat 34)) item Hkept) as [Hl Hr].
  now rewrite Hl, Hr.
Qed.

Lemma parse_list_value_items items :
  forallb plain_item items = true ->
  parse_list_value ("[" +:+ join ", " (map quoted items) +:+ "]") = strs items.
Proof.
  intros Hplain. unfold parse_list_value.
  change (findall_quoted None ("[" +:+ join ", " (map quoted items) +:+ "]"))
    with (findall_quoted None (join ", " (map quoted items) +:+ "]")).
  rewrite (findall_items items Hplain).
  destruct items as [|item items]; [reflexivity|].
  f_equal.
  rewrite forallb_filter_id.
  - rewrite <- (map_id (item :: items)) at 2. apply map_ext_in.
    intros x Hx. rewrite forallb_forall in Hplain.
    now destruct (plain_item_kept x (Hplain x Hx)).
  - rewrite forallb_forall in *. intros x Hx.
    now destruct (plain_item_kept x (Hplain x Hx)).
Qed.

(** A line made of a list key, a colon and a bracketed text is read as
    that key and that bracketed text. *)
Lemma parse_list_line d key body :
  key ∈ list_fields ->
  parse_text_line d (key +:+ ": [" +:+ body +:+ "]")
  = <[key := parse_list_value ("[" +:+ body +:+ "]")]> d.
Proof.
  intros Hkey. unfold parse_text_line.
  assert (Hvalue : strip (" [" +:+ body +:+ "]") = "[" +:+ body +:+ "]").
  { unfold strip.
    change (lstrip_by isspace (" [" +:+ body +:+ "]")) with (("[" +:+ body) +:+ "]").
    now apply rstrip_end. }
  assert (Hclose : contains "]" ("[" +:+ body +:+ "]") = true).
  { change ("[" +:+ body +:+ "]") with (("[" +:+ body) +:+ "]"). apply contains_last. }
  unfold list_fields in Hkey.
  repeat (apply elem_of_cons in Hkey as [->|Hkey]); [..|inversion Hkey];
    (match goal with
     | |- context [strip (?k +:+ ": [" +:+ body +:+ "]")] =>
         assert (Hline : strip (k +:+ ": [" +:+ body +:+ "]")
                         = k +:+ ": [" +:+ body +:+ "]")
           by (unfold strip;
               change (lstrip_by isspace (k +:+ ": [" +:+ body +:+ "]"))
                 with ((k +:+ ": [" +:+ body) +:+ "]");
               now apply rstrip_end);
         rewrite Hline;
         change (contains ":" (k +:+ ": [" +:+ body +:+ "]")) with true;
         change (startswith "-" (k +:+ ": [" +:+ body +:+ "]")) with false;
         change (split1 ":" (k +:+ ": [" +:+ body +:+ "]"))
           with [k; " [" +:+ body +:+ "]"]
     end);
    cbn [negb andb List.nth]; rewrite Hvalue;
    change (contains "[" ("[" +:+ body +:+ "]")) with true; rewrite Hclose;
    reflexivity.
Qed.

(** X21.  The text fallback reads back the list format of the prompt: a
    line made of one of the five list keys, a colon and, between
    brackets, items in double quotes separated by commas sets that key
    to exactly those items, in order, and changes no other key, as long
    as no item is empty, holds a double quote, or starts or ends with
    white space. *)
Theorem list_line_round_trip d key items :
  key ∈ list_fields ->
  forallb plain_item items = true ->
  parse_text_line d (list_line key items) = <[key := strs items]> d.
Proof.
  intros Hkey Hplain. unfold list_line.
  rewrite (parse_list_line d key _ Hkey). now rewrite parse_list_value_items.
Qed.

End TextLineFacts.

(** ** Model performance counters *)
Module PerformanceFacts.
Import Performance.

(** X22.  [track_model_performance] raises KeyError exactly for a model
    that is no key; otherwise it adds one to the success or to the
    failure counter of that model, keeps the keys and their order, and
    leaves the counters of every other model alone. *)
Theorem track_updates_one_counter model_name success performance :
  match track_model_performance model_name success performance with
  | None => stats_of model_name performance = None
  | Some performance' =>
      map fst performance' = map fst performance
      /\ (exists successes failures,
            stats_of model_name performance = Some (successes, failures)
            /\ stats_of model_name performance'
               = Some (if success then (S successes, failures)
                       else (successes, S failures)))
      /\ forall other, other <> model_name ->
           stats_of other performance' = stats_of other performance
  end.
Proof.
  induction performance as [|[model [successes failures]] rest IH];
    cbn [track_model_performance stats_of]; [reflexivity|].
  destruct (String.eqb model model_name) eqn:Hmodel.
  - apply String.eqb_eq in Hmodel. subst model. split; [reflexivity|].
    split.
    + exists successes, failures. cbn [stats_of]. rewrite String.eqb_refl. auto.
    + intros other Hother. cbn [stats_of].
      apply not_eq_sym, String.eqb_neq in Hother. now rewrite Hother.
  - destruct (track_model_performance model_name success rest) as [rest'|];
      [|exact IH].
    destruct IH as (Hkeys & (s & f & Hbefore & Hafter) & Hothers).
    split; [cbn [map fst]; now rewrite Hkeys|]. split.
    + exists s, f. cbn [stats_of]. rewrite Hmodel. auto.
    + intros other Hother. cbn [stats_of].
      destruct (String.eqb model other); [reflexivity | now apply Hothers].
Qed.

Lemma best_fold_has_success (performance : list (string * (nat * nat))) :
  forall rest best,
    (forall entry, entry ∈ rest -> entry ∈ performance) ->
    (forall model, fst best = Some model ->
       exists successes failures,
         (model, (successes, failures)) ∈ performance /\ (0 < successes)%nat) ->
    forall model, fst (fold_left best_step rest best) = Some model ->
      exists successes failures,
        (model, (successes, failures)) ∈ performance /\ (0 < successes)%nat.
Proof.
  induction rest as [|[m [s f]] rest IH]; intros best Hrest Hbest; cbn [fold_left];
    [exact Hbest|].
  apply IH.
  - intros entry Hentry. apply Hrest. now right.
  - destruct best as [best_model [best_num best_den]]. cbn [best_step].
    destruct (0 <? s + f)%nat; [|exact Hbest].
    destruct (best_num * (s + f) <? s * best_den)%nat eqn:Hbetter; [|exact Hbest].
    cbn [fst]. intros model [= <-]. exists s, f. split; [apply Hrest; now left|].
    apply Nat.ltb_lt in Hbetter. destruct s; [cbn in Hbetter; lia | lia].
Qed.

(** X23.  [get_best_performing_model] never returns a model without a
    recorded success, the default apart: its result is the first model of
    the roster, or a key whose success counter is positive.  With no
    success recorded at all it is the first model of the roster. *)
Theorem best_model_has_a_success performance :
  get_best_performing_model performance = "models/gemini-1.5-flash"
  \/ exists successes failures,
       (get_best_performing_model performance, (successes, failures)) ∈ performance
       /\ (0 < successes)%nat.
Proof.
  unfold get_best_performing_model.
  pose proof (best_fold_has_success performance performance (None, (0, 1))
                (fun _ H => H) ltac:(discriminate)) as Hfold.
  destruct (fold_left best_step performance (None, (0, 1))) as [[model|] ratio];
    cbn [fst] in Hfold; [|now left].
  destruct (String.eqb model EmptyString); [now left|].
  right. now apply Hfold.
Qed.

End PerformanceFacts.

(** ** Instances of the properties above *)
Module MoreInstances.
Import Examples.

Lemma reply_is_first_success_travel :
  fst (GeminiUtils._llm_chat (answering " travel ") "Hi" "simple" false empty_world)
  = "travel"
  /\ generate_log
       (snd (GeminiUtils._llm_chat (answering " travel ") "Hi" "simple" false empty_world))
     = [("models/gemini-1.5-flash", "Hi")].
Proof.
  apply (proj1 (CompletionFacts.reply_is_first_success (answering " travel ") "Hi"
                  "simple" false empty_world "models/gemini-1.5-flash" eq_refl)
           " travel ").
  reflexivity.
Defined.

Lemma replies_while_service_is_down_offline :
  fst (GeminiUtils.process_user_message offline "what should I wear in Goa"
         "web_user" empty_world)
  = inr GeminiUtils.not_understood_reply.
Proof.
  apply (CompletionFacts.replies_while_service_is_down offline
           "what should I wear in Goa" "web_user" empty_world).
  reflexivity.
Defined.

Lemma extraction_keeps_keys_web_user :
  is_Some (GeminiUtils.stored one_user "web_user" "location")
  /\ is_Some (fst (GeminiUtils.extract_user_info (answering budget_reply) "under $100"
                     "web_user" one_user) !! "location").
Proof.
  assert (H : is_Some (GeminiUtils.stored one_user "web_user" "location"))
    by (exists (PStr "Pune"); reflexivity).
  split; [exact H|].
  exact (ExtractionFacts.extraction_keeps_keys (answering budget_reply) "under $100"
           "web_user" one_user "location" H).
Defined.

Lemma unknown_location_is_stored_unenriched_web_user :
  GeminiUtils.stored
    (GeminiUtils.process_line online "web_user" "Location: Unknown" one_user)
    "web_user" "location" = Some (PStr "Unknown")
  /\ adapter_log (GeminiUtils.process_line online "web_user" "Location: Unknown" one_user)
     = adapter_log one_user.
Proof.
  destruct (LookupFacts.unknown_location_is_stored_unenriched online "web_user"
              "Location: Unknown" one_user known_user "Unknown")
    as (_ & Hlocation & _ & Hlog); try reflexivity.
  - discriminate.
  - now right.
  - split; assumption.
Defined.

Lemma location_info_found_paris :
  (exists d,
     fst (GeoInfo.get_location_info online "Paris" empty_world) = inr d
     /\ d !! "found" = Some (PBool true)
     /\ d !! "city" = Some PNone
     /\ d !! "country" = Some (PStr "France")
     /\ d !! "display_name" = Some (PStr "Paris, France"))
  /\ fst (GeoInfo.get_location_info offline "Atlantis" empty_world)
     = inr GeoInfo.not_found.
Proof.
  split.
  - pose proof (LookupFacts.location_info_found online "Paris" empty_world) as H.
    change (fst (Geo.get_user_location_polygon online "Paris" empty_world))
      with (Some (<["display_name" := PStr "Paris, France"]>
                 (<["source" := PStr "nominatim"]>
                 (<["latitude" := PFloat 4632072772483080310]>
                 (<["longitude" := PFloat 4612479102321767848]>
                 (<["bbox" := PList []]>
                 (<["address" := PDict (<["country" := PStr "France"]> ∅)]>
                 (<["place_id" := PInt 1]>
                 (<["importance" := PInt 1]> (∅ : gmap string pyval)))))))))) in H.
    cbv beta iota in H.
    match type of H with
    | match ?address with _ => _ end =>
        assert (Haddress : address = PDict (<["country" := PStr "France"]> ∅))
          by (vm_compute; reflexivity);
        rewrite Haddress in H
    end.
    destruct H as (d & Hd & Hfound & Hcity & _ & Hcountry & Hname).
    exists d. repeat split; assumption.
  - exact (LookupFacts.location_info_found offline "Atlantis" empty_world).
Defined.

Lemma telegram_reply_hello :
  fst (Transport.handle_telegram_message offline (fun _ => "error") "hello" "web_user"
         empty_world) = GeminiUtils.greeting_reply.
Proof.
  destruct (TransportFacts.telegram_reply_has_no_escaped_newline offline
              (fun _ => "error") "hello" "web_user" empty_world
              GeminiUtils.greeting_reply) as (_ & _ & Hsame & _); [reflexivity|].
  now apply Hsame.
Defined.

Lemma validate_keeps_supplied_region :
  Location.validate (<["region" := PStr "europe"]> (<["local_brands" := PStr "Zara"]> ∅))
    !! "region" = Some (PStr "europe")
  /\ Location.validate (<["region" := PStr "europe"]> (<["local_brands" := PStr "Zara"]> ∅))
       !! "local_brands" = Some (PList []).
Proof.
  split.
  - exact (ClassificationFacts.validate_keeps_supplied
             (<["region" := PStr "europe"]> (<["local_brands" := PStr "Zara"]> ∅))
             "region" (PStr "europe") eq_refl).
  - exact (ClassificationFacts.validate_keeps_supplied
             (<["region" := PStr "europe"]> (<["local_brands" := PStr "Zara"]> ∅))
             "local_brands" (PStr "Zara") eq_refl).
Defined.

Lemma classification_failure_raises_paris :
  fst (fst (Location.get_enhanced_location_info online chat_raises "Paris"
              Location.new_assistant empty_world)) = inl AttributeError
  /\ snd (fst (Location.get_enhanced_location_info online chat_raises "Paris"
                 Location.new_assistant empty_world)) = Location.new_assistant.
Proof.
  apply (PipelineFacts.classification_failure_raises online chat_raises "Paris"
           Location.new_assistant empty_world paris_hit CompletionError);
    reflexivity.
Defined.

Lemma one_classification_for_all_places_lyon :
  chat_log
    (snd (Location.get_enhanced_location_info online (chat_answers three_field_json)
            "Lyon"
            {| Location.location_cache := ∅;
               Location.classification_cache :=
                 <[Pipeline.shared_key online := Location.text_defaults]> ∅ |}
            empty_world)) = [].
Proof.
  destruct (PipelineFacts.one_classification_for_all_places online
              (chat_answers three_field_json) "Lyon"
              {| Location.location_cache := ∅;
                 Location.classification_cache :=
                   <[Pipeline.shared_key online := Location.text_defaults]> ∅ |}
              empty_world) as [Hshared _]; [reflexivity|].
  destruct (Hshared paris_hit Location.text_defaults) as [_ Hlog];
    [reflexivity | reflexivity | apply lookup_insert_eq | exact Hlog].
Defined.

Lemma recommendations_by_zone_tropical :
  Climate.get_climate_appropriate_recommendations
    (<["climate_zone" := PStr "tropical"]> ∅) = inr Climate.tropical
  /\ Climate.get_climate_appropriate_recommendations
       (<["climate_zone" := PStr "continental"]> ∅) = inr Climate.temperate.
Proof.
  split.
  - exact (proj2 (PipelineFacts.recommendations_by_zone
                    (<["climate_zone" := PStr "tropical"]> ∅))
             (or_introl eq_refl) "tropical" eq_refl).
  - exact (proj2 (PipelineFacts.recommendations_by_zone
                    (<["climate_zone" := PStr "continental"]> ∅))
             (or_introl eq_refl) "continental" eq_refl).
Defined.

Lemma list_line_round_trip_brands :
  Location.parse_text_line Location.text_defaults
    (TextFormat.list_line "local_brands" ["Zara"; "H&M"; "Marks & Spencer"])
  = <["local_brands" := Location.strs ["Zara"; "H&M"; "Marks & Spencer"]]>
      Location.text_defaults.
Proof.
  apply (TextLineFacts.list_line_round_trip Location.text_defaults "local_brands"
           ["Zara"; "H&M"; "Marks & Spencer"]).
  - unfold Location.list_fields. apply elem_of_cons. now left.
  - reflexivity.
Defined.

End MoreInstances.

(** ** The orchestrator never raises on a store it has written itself *)
Module StoreShapeFacts.
Import GeminiUtils GeminiUtilsFacts StoreShape.

Lemma well_formed_same_store w w' :
  user_preferences w' = user_preferences w -> well_formed w -> well_formed w'.
Proof. unfold well_formed. intros ->. auto. Qed.

Lemma store_field_well_formed user_id key v w :
  key <> "enhanced_location" \/ (exists d, v = PDict d) ->
  well_formed w -> well_formed (store_field user_id key v w).
Proof.
  intros Hkey Hw u record x. cbn. rewrite lookup_alter.
  destruct (decide (user_id = u)) as [->|Hu]; [|apply Hw].
  destruct (user_preferences w !! u) as [old|] eqn:Hold; [|discriminate].
  cbn. intros [= <-].
  destruct (decide (key = "enhanced_location")) as [->|Hne].
  - rewrite lookup_insert_eq. intros [= <-].
    destruct Hkey as [Hkey|Hkey]; [congruence | exact Hkey].
  - rewrite lookup_insert_ne by assumption. now apply (Hw u old).
Qed.

Section WithBackend.
Context (E : Backend).

Lemma enhanced_location_shape location w :
  fst (get_enhanced_location_info E location w) = PNone
  \/ exists d, fst (get_enhanced_location_info E location w) = PDict d.
Proof.
  unfold get_enhanced_location_info.
  destruct (_ || _); [now left|].
  destruct (Geo.get_user_location_polygon E location w) as [[d|] w1];
    [destruct (truthy (PDict d))|]; right; eexists; reflexivity.
Qed.

Lemma process_line_well_formed user_id line w :
  well_formed w -> well_formed (process_line E user_id line w).
Proof.
  intros Hw. rewrite process_line_labeled.
  destruct (first_label line) as [l|]; [|exact Hw].
  unfold apply_label.
  destruct (String.eqb _ "unknown"); [exact Hw|].
  destruct l;
    try (apply store_field_well_formed; [left; discriminate | exact Hw]).
  cbn [label_token].
  set (v := value_after "Location:" line).
  pose proof (enhanced_location_frame E v (store_field user_id "location" (PStr v) w))
    as [Hp _].
  pose proof (enhanced_location_shape v (store_field user_id "location" (PStr v) w))
    as Hshape.
  destruct (get_enhanced_location_info E v _) as [enhanced w1]. cbn [fst snd] in *.
  assert (Hw1 : well_formed w1).
  { apply (well_formed_same_store _ _ Hp).
    apply store_field_well_formed; [left; discriminate | exact Hw]. }
  destruct (truthy enhanced) eqn:Htruthy; [|exact Hw1].
  apply store_field_well_formed; [|exact Hw1].
  right. destruct Hshape as [->|Hd]; [discriminate | exact Hd].
Qed.

Lemma extract_user_info_well_formed message user_id w :
  well_formed w -> well_formed (snd (extract_user_info E message user_id w)).
Proof.
  intros Hw. unfold extract_user_info.
  destruct (llm_chat_frame E (extract_user_info_prompt message) "medium" true w)
    as (Hp & _).
  destruct (_llm_chat E _ _ _ w) as [extracted w1]. cbn [fst snd] in *.
  assert (Hw1 : well_formed w1) by exact (well_formed_same_store _ _ Hp Hw).
  assert (Hw2 : well_formed (match user_preferences w1 !! user_id with
                             | Some _ => w1
                             | None => set_user_preferences (insert user_id ∅) w1
                             end)).
  { destruct (user_preferences w1 !! user_id); [exact Hw1|].
    intros u record v. cbn.
    destruct (decide (user_id = u)) as [->|Hu].
    - rewrite lookup_insert_eq. intros [= <-]. rewrite lookup_empty. discriminate.
    - rewrite lookup_insert_ne by assumption. apply Hw1. }
  revert Hw2. generalize (match user_preferences w1 !! user_id with
                          | Some _ => w1
                          | None => set_user_preferences (insert user_id ∅) w1
                          end).
  generalize (split newline (strip extracted)).
  intros lines. induction lines as [|line lines IH]; intros w2 Hw2; cbn [fold_left];
    [exact Hw2|].
  apply IH. now apply process_line_well_formed.
Qed.

Lemma generate_fashion_response_returns message intent user_id w :
  well_formed w ->
  exists reply,
    fst (generate_fashion_response E message intent user_id w) = inr reply
    /\ user_preferences (snd (generate_fashion_response E message intent user_id w))
       = user_preferences w.
Proof.
  intros Hw. unfold generate_fashion_response. cbv zeta.
  assert (Hdict : exists d,
    get_or (default ∅ (user_preferences w !! user_id)) "enhanced_location" (PDict ∅)
    = PDict d).
  { unfold get_or.
    destruct (user_preferences w !! user_id) as [record|] eqn:Hrecord; cbn.
    - destruct (record !! "enhanced_location") as [v|] eqn:Hv; cbn; [|eauto].
      exact (Hw user_id record v Hrecord Hv).
    - rewrite lookup_empty. cbn. eauto. }
  destruct Hdict as [d ->].
  destruct (truthy (PDict d)); [destruct (truthy (get d "polygon_available"))|];
    repeat match goal with
           | |- context [if ?b then _ else _] => destruct b
           end;
    match goal with
    | |- context [_llm_chat E ?p "complex" true w] =>
        destruct (llm_chat_frame E p "complex" true w) as (Hp & _);
        destruct (_llm_chat E p "complex" true w) as [text w1]
    end; cbn [fst snd] in *; eauto.
Qed.

(** X24.  From a store in which every enhanced_location is a dictionary,
    the empty store for one, [process_user_message] never raises: it
    returns a reply, and it leaves the store in that shape, so that the
    next message finds it so again. *)
Theorem process_user_message_returns message user_id w :
  well_formed w ->
  (exists reply, fst (process_user_message E message user_id w) = inr reply)
  /\ well_formed (snd (process_user_message E message user_id w)).
Proof.
  intros Hw. unfold process_user_message.
  pose proof (extract_user_info_well_formed message user_id w Hw) as Hw1.
  destruct (extract_user_info E message user_id w) as [info w1]. cbn [snd] in Hw1.
  destruct (mem (lower (strip message)) greetings); [split; [eauto | exact Hw1]|].
  destruct (_ && _); [split; [eauto | exact Hw1]|].
  unfold classify_intent.
  destruct (llm_chat_frame E (classify_intent_prompt message) "simple" false w1)
    as (Hp & _).
  destruct (_llm_chat E _ "simple" false w1) as [intent w2]. cbn [snd] in Hp.
  pose proof (well_formed_same_store _ _ Hp Hw1) as Hw2.
  destruct (negb (mem intent intent_categories)); [split; [eauto | exact Hw2]|].
  destruct (generate_fashion_response_returns message intent user_id w2 Hw2)
    as (reply & Hreply & Hstore).
  split; [eauto|]. exact (well_formed_same_store _ _ Hstore Hw2).
Qed.

End WithBackend.

Lemma process_user_message_returns_goa :
  exists reply,
    fst (process_user_message (Examples.answering "travel") "what to wear in Goa"
           "web_user" empty_world) = inr reply.
Proof.
  apply (process_user_message_returns (Examples.answering "travel")
           "what to wear in Goa" "web_user" empty_world).
  intros u record v H. cbn in H. rewrite lookup_empty in H. discriminate.
Defined.

End StoreShapeFacts.

(** ** The JSON search of the classification parser *)
Module SearchFacts.
Import Location TextLineFacts.

#[local] Arguments String.append !s1 s2 : simpl nomatch.

Lemma strip_prefix_spec p : forall s r, strip_prefix p s = Some r -> s = p +:+ r.
Proof.
  induction p as [|a p IH]; intros s r; simpl.
  - now intros [= ->].
  - destruct s as [|b s]; [discriminate|].
    destruct (Ascii.eqb a b) eqn:Hab; [|discriminate].
    apply Ascii.eqb_eq in Hab. subst b. intros H. now rewrite (IH s r H).
Qed.

Lemma partition_spec sep : forall s before after,
  partition sep s = Some (before, after) -> s = before +:+ sep +:+ after.
Proof.
  induction s as [|c s IH]; intros before after; cbn [partition].
  - destruct (strip_prefix sep EmptyString) as [r|] eqn:Hp; [|discriminate].
    intros [= <- <-]. exact (strip_prefix_spec _ _ _ Hp).
  - destruct (strip_prefix sep (String c s)) as [r|] eqn:Hp.
    + intros [= <- <-]. exact (strip_prefix_spec _ _ _ Hp).
    + destruct (partition sep s) as [[b a]|] eqn:Hs; [|discriminate].
      intros [= <- <-]. simpl. now rewrite (IH b a eq_refl).
Qed.

Lemma upto_last_none ch : forall s,
  upto_last ch s = None -> contains (String ch EmptyString) s = false.
Proof.
  unfold contains. induction s as [|c s IH]; [reflexivity|].
  cbn [upto_last]. destruct (upto_last ch s); [discriminate|].
  destruct (Ascii.eqb c ch) eqn:Hc; [discriminate|]. intros _.
  cbn [partition strip_prefix]. rewrite Ascii.eqb_sym, Hc.
  specialize (IH eq_refl).
  now destruct (partition (String ch EmptyString) s).
Qed.

Lemma upto_last_spec ch : forall s r,
  upto_last ch s = Some r ->
  exists post, s = r +:+ String ch post
               /\ contains (String ch EmptyString) post = false.
Proof.
  induction s as [|c s IH]; intros r; cbn [upto_last]; [discriminate|].
  destruct (upto_last ch s) as [r'|] eqn:Hs.
  - intros [= <-]. destruct (IH r' eq_refl) as (post & -> & Hpost).
    exists post. split; [reflexivity | exact Hpost].
  - destruct (Ascii.eqb c ch) eqn:Hc; [|discriminate].
    apply Ascii.eqb_eq in Hc. subst c. intros [= <-].
    exists s. split; [reflexivity | now apply upto_last_none].
Qed.

(** X25.  The JSON text taken from a response runs from its first opening
    brace to its last closing brace: no opening brace comes before it and
    no closing brace after it, so any prose with braces around the object
    ends up inside the text given to the decoder. *)
Theorem search_braces_is_greedy response json_str :
  search_braces response = Some json_str ->
  exists before inner after,
    response = before +:+ "{" +:+ inner +:+ "}" +:+ after
    /\ json_str = "{" +:+ inner +:+ "}"
    /\ contains "{" before = false
    /\ contains "}" after = false.
Proof.
  unfold search_braces.
  destruct (partition "{" response) as [[before rest]|] eqn:Hopen; [|discriminate].
  destruct (upto_last "}" rest) as [inner|] eqn:Hclose; [|discriminate].
  intros [= <-].
  destruct (upto_last_spec _ _ _ Hclose) as (after & -> & Hafter).
  exists before, inner, after. split; [|split; [reflexivity|split; [|exact Hafter]]].
  - exact (partition_spec _ _ _ _ Hopen).
  - unfold contains.
    destruct (TransportFacts.partition_first "{" ltac:(discriminate) _ _ _ Hopen)
      as [-> _]. reflexivity.
Qed.

Lemma search_braces_is_greedy_two_objects :
  search_braces "Here: {a} and {b} done" = Some "{a} and {b}"
  /\ exists before inner after,
       "Here: {a} and {b} done" = before +:+ "{" +:+ inner +:+ "}" +:+ after
       /\ "{a} and {b}" = "{" +:+ inner +:+ "}"
       /\ contains "{" before = false
       /\ contains "}" after = false.
Proof.
  split; [reflexivity|].
  apply (search_braces_is_greedy "Here: {a} and {b} done" "{a} and {b}").
  reflexivity.
Defined.

End SearchFacts.
